(** * Error classification and rendering of golang-authentication

    A shallow embedding of [internal/handlers/errors.go] and
    [internal/web/errors.go], and the properties of the public-code
    codec, the status registry, the JSON error view and the shutdown
    marker that are stated about them. *)

From Stdlib Require Import ZArith String Ascii.
From stdpp Require Import base tactics option list strings gmap fin_maps.

Local Open Scope Z_scope.

(** ** Go runtime: calls that may panic *)

(** The two run-time panics the modelled code can raise. *)
Inductive runtime_error : Type :=
| SliceOutOfRange      (* slice bounds out of range *)
| NilDereference.      (* method call on a nil interface value *)

(** The outcome of running a Go call: it returns a value or it panics. *)
Inductive run (A : Type) : Type :=
| Ret (a : A)
| Panic (r : runtime_error).
Arguments Ret {A} a.
Arguments Panic {A} r.

#[global] Instance run_ret : MRet run := fun A a => Ret a.
#[global] Instance run_bind : MBind run := fun A B f m =>
  match m with
  | Ret a => f a
  | Panic r => Panic r
  end.

(** ** Go strings: byte sequences, indexed and sliced by byte *)

(** [s[n:]], defined when [n <= len(s)]. *)
Fixpoint drop_bytes (n : nat) (s : string) : string :=
  match n, s with
  | O, _ => s
  | S n', String _ s' => drop_bytes n' s'
  | S _, EmptyString => EmptyString
  end.

(** [s[:n]], defined when [n <= len(s)]. *)
Fixpoint take_bytes (n : nat) (s : string) : string :=
  match n, s with
  | O, _ => EmptyString
  | S n', String c s' => String c (take_bytes n' s')
  | S _, EmptyString => EmptyString
  end.

(** The slice expression [s[n:]] with Go's bounds check. *)
Definition slice_from (s : string) (n : nat) : run string :=
  if (n <=? String.length s)%nat then Ret (drop_bytes n s)
  else Panic SliceOutOfRange.

Definition comma : ascii := ","%char.

(** ** Error values

    An [error] is an interface value: [nil] or a value of some dynamic
    type.  The dynamic types are those the two source files declare or
    name, the wrappers of github.com/pkg/errors that [errors.Cause]
    walks through, and [otherError] for any type declared elsewhere,
    given by its message, by what its [Public] method does, if it has
    one, and by what its [Cause] method returns, if it has one. *)

Record shutdown : Type := { Message : string }.

#[warnings="-register-all"]
Inductive error : Type :=
| nil_error
| shutdown_ptr (s : shutdown)                 (* *shutdown *)
| ControllerError (e : string)                (* handlers.ControllerError *)
| privateError (e : string)                   (* handlers.privateError *)
| ValidationError (ve : gmap string error)    (* models.ValidationError *)
| fundamental (msg : string)                  (* errors.New(msg) *)
| withMessage (cause : error) (msg : string)  (* errors.WithMessage *)
| withStack (cause : error)                   (* errors.WithStack *)
| otherError (msg : string) (public : option (run string))
    (cause : option error).

(** ** Package handlers *)

Module handlers.

Definition prefix_literal : string := "handlers: ".

Definition ErrNotFound : error :=
  ControllerError "handlers: not_found, resource not found".
Definition ErrInvalidFormInput : error :=
  ControllerError "handlers: invalid_form, provided input cannot be parsed".
Definition ErrContentTypeNotAccepted : error :=
  ControllerError
    "handlers: content_type_not_accepted, the content-type provided is not supported".
Definition ErrGrantTypeNotAccepted : error :=
  ControllerError
    "handlers: unsupported_grant_type, the grant-type provided is not supported".

(** The loop [for i := 1; i < len(s); i++ { if s[i] == ',' ... }]:
    [rest] is [s[i:]], so the recursion visits s[i], s[i+1], ... and
    gives the first index at which the loop breaks. *)
Fixpoint scan_comma (rest : string) (i : nat) : option nat :=
  match rest with
  | EmptyString => None
  | String c rest' =>
      if Ascii.eqb c comma then Some i else scan_comma rest' (S i)
  end.

(** The body of [Public] after the prefix has been removed: the scan
    starts at index 1 and [s = s[:i]] cuts at the comma found. *)
Definition cut_at_comma (s : string) : string :=
  match scan_comma (drop_bytes 1 s) 1 with
  | Some i => take_bytes i s
  | None => s
  end.

(** [Public] with the length of the prefix literal as a parameter. *)
Definition Public_after (n : nat) (e : string) : run string :=
  s ← slice_from e n;
  mret (cut_at_comma s).

(** [func (e ControllerError) Public() string] *)
Definition Public (e : string) : run string :=
  Public_after (String.length prefix_literal) e.

(** [func (e ControllerError) Error() string] *)
Definition Error (e : string) : string := e.

(** [func (e privateError) Error() string] *)
Definition privateError_Error (e : string) : string := e.

End handlers.

(** ** Package models (declarations only; the package is not part of the
    sources at hand) *)

Module models.

(** Modelled from the spec: the [Public] method of
    [models.ValidationError], whose declaration is missing.  The
    aggregate is a disclosable error; the documentation of
    [Error.JSON] gives its code as "validation_error". *)
Definition ValidationError_Public (ve : gmap string error) : run string :=
  Ret "validation_error"%string.

(** The method set: [Public err] is [None] when the dynamic type of
    [err] has no [Public() string] method (and for [nil]); otherwise
    it is what the call does.  [err.(models.PublicError)] succeeds
    exactly when it is [Some]. *)
Definition Public (err : error) : option (run string) :=
  match err with
  | ControllerError e => Some (handlers.Public e)
  | ValidationError ve => Some (ValidationError_Public ve)
  | otherError _ public _ => public
  | nil_error | shutdown_ptr _ | privateError _
  | fundamental _ | withMessage _ _ | withStack _ => None
  end.

(** [err.Public()] on a value [err] of interface type
    [models.PublicError].  Go's typing admits there only [nil] and
    values that have the method; calling it on [nil] panics. *)
Definition call_Public (err : error) : run string :=
  match Public err with
  | Some call => call
  | None => Panic NilDereference
  end.

(** The public code of [err], when the call of [Public] returns. *)
Definition public_code (err : error) : option string :=
  match call_Public err with
  | Ret c => Some c
  | Panic _ => None
  end.

(** [err.(models.ValidationError)] *)
Definition asValidationError (err : error) : option (gmap string error) :=
  match err with
  | ValidationError ve => Some ve
  | _ => None
  end.

End models.

(** ** github.com/pkg/errors *)

Module errors.

(** The assertion [err.(causer)] of [errors.Cause]: what the [Cause]
    method of [err] returns, [None] when its dynamic type has no such
    method (and for [nil]). *)
Definition causer (err : error) : option error :=
  match err with
  | withMessage cause _ => Some cause
  | withStack cause => Some cause
  | otherError _ _ cause => cause
  | _ => None
  end.

(** [errors.Cause]: follow [Cause()] while the value has that method,
    whatever its type. *)
Fixpoint Cause (err : error) : error :=
  match err with
  | withMessage cause _ => Cause cause
  | withStack cause => Cause cause
  | otherError _ _ (Some cause) => Cause cause
  | _ => err
  end.

(** [errors.New(msg)] and the [Error] method of its result. *)
Definition New (msg : string) : error := fundamental msg.
Definition fundamental_Error (msg : string) : string := msg.

(** [errors.WithMessage(err, msg)] *)
Definition WithMessage (err : error) (msg : string) : error :=
  match err with
  | nil_error => nil_error
  | _ => withMessage err msg
  end.

(** [errors.WithStack(err)] *)
Definition WithStack (err : error) : error :=
  match err with
  | nil_error => nil_error
  | _ => withStack err
  end.

(** [errors.Wrap(err, msg)] *)
Definition Wrap (err : error) (msg : string) : error :=
  match err with
  | nil_error => nil_error
  | _ => withStack (withMessage err msg)
  end.

(** One wrapping step, and a stack of them put around an error, the
    head of the list outermost. *)
Inductive layer : Type :=
| LWithMessage (msg : string)
| LWithStack
| LWrap (msg : string).

Definition add_layer (l : layer) (err : error) : error :=
  match l with
  | LWithMessage msg => WithMessage err msg
  | LWithStack => WithStack err
  | LWrap msg => Wrap err msg
  end.

Definition wrap_layers (layers : list layer) (err : error) : error :=
  foldr add_layer err layers.

End errors.

(** ** Cause chains *)

Module wrapping.

(** One wrapping step: a layer of pkg/errors, or a value of any other
    type that keeps the error it wraps behind a [Cause] method. *)
Inductive wrapper : Type :=
| by_pkg (l : errors.layer)
| by_other (msg : string) (public : option (run string)).

Definition add_wrapper (w : wrapper) (err : error) : error :=
  match w with
  | by_pkg l => errors.add_layer l err
  | by_other msg public => otherError msg public (Some err)
  end.

(** A stack of wrapping steps around an error, the head outermost. *)
Definition wrap_all (ws : list wrapper) (err : error) : error :=
  foldr add_wrapper err ws.

(** The innermost cause of an error, as the specification words it:
    the end of the chain of causes, the error itself when it has no
    [Cause] method. *)
Inductive innermost : error → error → Prop :=
| innermost_here (err : error) :
    errors.causer err = None → innermost err err
| innermost_step (err cause root : error) :
    errors.causer err = Some cause →
    innermost cause root →
    innermost err root.

End wrapping.

(** ** Package web *)

Module web.

Definition StatusBadRequest : Z := 400.
Definition StatusInternalServerError : Z := 500.

(** [func (s *shutdown) Error() string] *)
Definition shutdown_Error (s : shutdown) : string := Message s.

(** [func NewShutdownError(message string) error] *)
Definition NewShutdownError (message : string) : error :=
  shutdown_ptr {| Message := message |}.

(** [func IsShutdown(err error) bool] *)
Definition IsShutdown (err : error) : bool :=
  match errors.Cause err with
  | shutdown_ptr _ => true
  | _ => false
  end.

(** [type Error struct { codes map[string]int }]; [None] is the nil map. *)
Record Error : Type := { codes : option (gmap string Z) }.

(** The registry entry of a code, if the map has one. *)
Definition entry (e : Error) (public : string) : option Z :=
  m ← codes e; m !! public.

(** The index expression [e.codes[public]]: the zero value when the
    key is absent or the map is nil. *)
Definition index (e : Error) (public : string) : Z :=
  default 0 (entry e public).

(** [func (e *Error) SetCode(err models.PublicError, code int)]; the
    result is the receiver after the call. *)
Definition SetCode (e : Error) (err : error) (code : Z) : run Error :=
  let m := match codes e with
           | None => ∅
           | Some m => m
           end in
  public ← models.call_Public err;
  mret {| codes := Some (<[public := code]> m) |}.

(** Values stored in the document, a [map[string]interface{}]. *)
Inductive iface : Type :=
| iface_string (s : string)
| iface_fields (vem : gmap string string).

(** [if s := e.codes[public]; s != 0 { status = s }] *)
Definition override (e : Error) (public : string) (status : Z) : Z :=
  let s := index e public in
  if decide (s ≠ 0) then s else status.

(** The loop [for field, err := range ve] of [JSON].  [visit] lists the
    entries in the order in which the iteration yields them. *)
Fixpoint range_fields (e : Error) (visit : list (string * error))
    (status : Z) (vem : gmap string string) : run (Z * gmap string string) :=
  match visit with
  | [] => Ret (status, vem)
  | (field, err) :: rest =>
      public ← models.call_Public err;
      range_fields e rest (override e public status) (<[field := public]> vem)
  end.

(** [func (e Error) JSON(ctx, w, err error) error]: the result is the
    pair [(data, status)] passed to [Respond].  Go leaves the order of
    a [range] over a map open; [visit] is the order taken by this
    call, and is read only when [err] is a [models.ValidationError]. *)
Definition JSON (e : Error) (err : error) (visit : list (string * error))
    : run (gmap string iface * Z) :=
  let status := StatusInternalServerError in
  let data : gmap string iface :=
    {[ "error"%string := iface_string "server_error" ]} in
  '(data, status) ←
    match models.Public err with
    | Some call =>
        let status := StatusBadRequest in
        public ← call;
        let data := <[ "error"%string := iface_string public ]> data in
        mret (data, override e public status)
    | None => mret (data, status)
    end;
  match models.asValidationError err with
  | Some ve =>
      '(status, vem) ← range_fields e visit status ∅;
      mret (<[ "fields"%string := iface_fields vem ]> data, status)
  | None => mret (data, status)
  end.

(** The orders in which a [range] over the fields of [err] may run:
    the permutations of the entries of the map. *)
Definition range_order (err : error) (visit : list (string * error)) : Prop :=
  match models.asValidationError err with
  | Some ve => visit ≡ₚ map_to_list ve
  | None => True
  end.

(** The status the registry holds for the code of a field value:
    [e.codes[err.Public()]], and 0 when the call does not return. *)
Definition field_status (e : Error) (err : error) : Z :=
  from_option (index e) 0 (models.public_code err).

(** No two fields of [err] carry different statuses other than 0. *)
Definition overrides_agree (e : Error) (err : error) : Prop :=
  match models.asValidationError err with
  | Some ve =>
      map_Forall (λ _ a,
        map_Forall (λ _ b,
          field_status e a = 0 ∨ field_status e b = 0
          ∨ field_status e a = field_status e b) ve) ve
  | None => True
  end.

(** The fields visited stand in no way of the status 422 registered
    for code [c]: the [Public] of each returns, and its code is [c] or
    has no status in [e] other than 0 and 422.  Nothing is asked of an
    error that is not a validation aggregate. *)
Definition fields_allow_422 (e : Error) (err : error) (c : string)
    (visit : list (string * error)) : Prop :=
  match models.asValidationError err with
  | Some _ =>
      Forall (λ p,
        match models.public_code p.2 with
        | Some code => code = c ∨ index e code = 0 ∨ index e code = 422
        | None => False
        end) visit
  | None => True
  end.

(** The document of a validation aggregate: its own code and the
    codes of its fields. *)
Definition aggregate_document (ve : gmap string error) : gmap string iface :=
  <[ "fields"%string := iface_fields (omap models.public_code ve) ]>
    {[ "error"%string := iface_string "validation_error" ]}.

End web.

(** ** The convention of the encoded errors *)

Module codec.

(** Whether byte [c] occurs in [s]. *)
Fixpoint contains_byte (c : ascii) (s : string) : bool :=
  match s with
  | EmptyString => false
  | String c' s' => Ascii.eqb c' c || contains_byte c s'
  end.

(** The layout of the error constants of package handlers, as the
    specification words it: "<prefix>: <code>, <message>". *)
Definition Encode (prefix code message : string) : string :=
  (prefix ++ ": " ++ code ++ ", " ++ message)%string.

(** Decoding as the specification words it: strip [len(prefix) + 2]
    bytes, which is what [Public] does with its own prefix literal. *)
Definition Decode (prefix encoded : string) : run string :=
  handlers.Public_after (String.length prefix + 2) encoded.

(** The round trip for every code without a comma. *)
Definition roundtrip_for_all_codes : Prop :=
  ∀ prefix code message : string,
    contains_byte comma code = false →
    Decode prefix (Encode prefix code message) = Ret code.

End codec.

(** ** Statements that are put to the test below *)

Module stated.

(** Every error with a [Public] method and no registry entry for its
    code renders as [{"error": c}] with status 400. *)
Definition disclosable_default : Prop :=
  ∀ (e : web.Error) (err : error) (c : string) (visit : list (string * error)),
    models.Public err = Some (Ret c) →
    web.entry e c = None →
    web.range_order err visit →
    web.JSON e err visit = Ret ({[ "error"%string := web.iface_string c ]}, 400).

(** Every error with a [Public] method renders with status 422 once
    its code has been registered with 422. *)
Definition registered_status_rendered : Prop :=
  ∀ (e e' : web.Error) (err : error) (c : string) (visit : list (string * error)),
    models.Public err = Some (Ret c) →
    web.SetCode e err 422 = Ret e' →
    web.range_order err visit →
    ∃ data, web.JSON e' err visit = Ret (data, 422).

(** Two renderings of one error under one registry give the same
    document and status. *)
Definition render_twice_identical : Prop :=
  ∀ (e : web.Error) (err : error) (visit1 visit2 : list (string * error))
    (r1 r2 : gmap string web.iface * Z),
    web.range_order err visit1 →
    web.range_order err visit2 →
    web.JSON e err visit1 = Ret r1 →
    web.JSON e err visit2 = Ret r2 →
    r1 = r2.

End stated.

(** ** Sample values *)

Module sample.

Local Open Scope string_scope.

(** Two field errors of some type that implements
    [models.PublicError]. *)
Definition invalid_email : error :=
  otherError "models: invalid_email, not an address"
    (Some (Ret "invalid_email")) None.
Definition too_young : error :=
  otherError "models: too_young, under age" (Some (Ret "too_young")) None.

Definition form : gmap string error :=
  <[ "email" := invalid_email ]> (<[ "age" := too_young ]> ∅).

Definition too_short : error :=
  otherError "models: too_short, name too short" (Some (Ret "too_short")) None.

Definition signup : gmap string error := <[ "name" := too_short ]> form.

Definition no_codes : web.Error := {| web.codes := None |}.

Definition one_code : web.Error :=
  {| web.codes := Some {[ "too_young" := 422 ]} |}.

Definition aggregate_code : web.Error :=
  {| web.codes := Some {[ "validation_error" := 422 ]} |}.

Definition age_conflict : web.Error :=
  {| web.codes := Some {[ "too_young" := 409 ]} |}.

Definition two_codes : web.Error :=
  {| web.codes := Some (<[ "invalid_email" := 409 ]> {[ "too_young" := 422 ]}) |}.

End sample.

(** * Properties *)

(** ** Strings *)

Section bytes.

Local Open Scope nat_scope.

Lemma drop_bytes_append (a b : string) :
  drop_bytes (String.length a) (a ++ b)%string = b.
Proof. induction a as [|c a IH]; simpl; [reflexivity | exact IH]. Qed.

Lemma take_bytes_append (a b : string) :
  take_bytes (String.length a) (a ++ b)%string = a.
Proof. induction a as [|c a IH]; simpl; [reflexivity | by rewrite IH]. Qed.

Lemma length_append (a b : string) :
  String.length (a ++ b)%string = String.length a + String.length b.
Proof. induction a as [|c a IH]; simpl; [reflexivity | by rewrite IH]. Qed.

Lemma append_assoc (a b c : string) :
  ((a ++ b) ++ c = a ++ (b ++ c))%string.
Proof.
  induction a as [|x a IH]; [reflexivity | exact (f_equal (String x) IH)].
Qed.

Lemma slice_from_append (a b : string) :
  slice_from (a ++ b)%string (String.length a) = Ret b.
Proof.
  unfold slice_from. rewrite length_append, drop_bytes_append.
  destruct (Nat.leb_spec (String.length a) (String.length a + String.length b));
    [reflexivity | lia].
Qed.

Lemma slice_from_short (s : string) (n : nat) :
  String.length s < n → slice_from s n = Panic SliceOutOfRange.
Proof.
  intros Hlt. unfold slice_from.
  destruct (Nat.leb_spec n (String.length s)); [lia | reflexivity].
Qed.

Lemma slice_from_long (s : string) (n : nat) :
  n ≤ String.length s → slice_from s n = Ret (drop_bytes n s).
Proof.
  intros Hle. unfold slice_from.
  destruct (Nat.leb_spec n (String.length s)); [reflexivity | lia].
Qed.

Lemma scan_comma_none (rest : string) (i : nat) :
  codec.contains_byte comma rest = false → handlers.scan_comma rest i = None.
Proof.
  revert i. induction rest as [|c rest IH]; intros i; simpl; [reflexivity |].
  destruct (Ascii.eqb c comma); simpl; [discriminate | apply IH].
Qed.

Lemma scan_comma_first (code rest : string) (i : nat) :
  codec.contains_byte comma code = false →
  handlers.scan_comma (code ++ String comma rest)%string i
  = Some (i + String.length code).
Proof.
  revert i. induction code as [|c code IH]; intros i; simpl.
  - intros _. by rewrite Nat.add_0_r.
  - destruct (Ascii.eqb c comma); simpl; [discriminate |].
    intros Hfree. rewrite IH by exact Hfree. f_equal. lia.
Qed.

(** The cut gives back a code that is not empty and has no comma. *)
Lemma cut_at_comma_code (code rest : string) :
  code ≠ EmptyString →
  codec.contains_byte comma code = false →
  handlers.cut_at_comma (code ++ String comma rest)%string = code.
Proof.
  intros Hne Hfree. destruct code as [|c code]; [done |].
  unfold handlers.cut_at_comma. simpl drop_bytes.
  simpl in Hfree. apply orb_false_iff in Hfree as [_ Hfree].
  rewrite scan_comma_first by exact Hfree. simpl.
  by rewrite take_bytes_append.
Qed.

(** Without a comma from index 1 on, the cut returns its argument. *)
Lemma cut_at_comma_whole (s : string) :
  codec.contains_byte comma (drop_bytes 1 s) = false →
  handlers.cut_at_comma s = s.
Proof.
  intros Hfree. unfold handlers.cut_at_comma.
  by rewrite scan_comma_none.
Qed.

End bytes.

(** ** The public code of a controller error *)

(** C5, as amended: for every prefix, every code that is not empty and
    has no comma, and every message, decoding "<prefix>: <code>,
    <message>" gives back the code; so does [ControllerError.Public] on
    "handlers: <code>, <message>". *)
Theorem decode_encode_code (prefix code message : string) :
  code ≠ EmptyString →
  codec.contains_byte comma code = false →
  codec.Decode prefix (codec.Encode prefix code message) = Ret code
  ∧ handlers.Public (codec.Encode "handlers" code message) = Ret code.
Proof.
  intros Hne Hfree.
  assert (Hany : ∀ p : string,
    handlers.Public_after (String.length p + 2) (codec.Encode p code message)
    = Ret code).
  { intros p. unfold handlers.Public_after, codec.Encode.
    replace (String.length p + 2)%nat with (String.length (p ++ ": ")%string)
      by (rewrite length_append; reflexivity).
    rewrite <- (append_assoc p ": "), slice_from_append. simpl.
    change (", " ++ message)%string with (String comma (" " ++ message)%string).
    by rewrite cut_at_comma_code. }
  split; [apply Hany | apply (Hany "handlers"%string)].
Qed.

Lemma decode_encode_code_witness :
  codec.Decode "models" (codec.Encode "models" "invalid_parse" "contents, then more")
  = Ret "invalid_parse"%string
  ∧ handlers.Public (codec.Encode "handlers" "invalid_parse" "contents, then more")
    = Ret "invalid_parse"%string.
Proof.
  apply (decode_encode_code "models" "invalid_parse" "contents, then more").
  - discriminate.
  - reflexivity.
Defined.

(** C5 as stated fails at the empty code: the scan for the comma starts
    at index 1, so the comma at index 0 is passed over. *)
Lemma decode_empty_code_counterexample : ¬ codec.roundtrip_for_all_codes.
Proof.
  intros Hall.
  specialize (Hall "handlers"%string ""%string "oops"%string eq_refl).
  vm_compute in Hall. discriminate Hall.
Qed.

(** C10: a controller error of at least [len("handlers: ")] bytes whose
    remainder has no comma at index 1 or later has the whole remainder
    as its public code, a comma at index 0 included. *)
Theorem Public_without_later_comma (e : string) :
  (String.length handlers.prefix_literal ≤ String.length e)%nat →
  codec.contains_byte comma
    (drop_bytes 1 (drop_bytes (String.length handlers.prefix_literal) e)) = false →
  handlers.Public e
  = Ret (drop_bytes (String.length handlers.prefix_literal) e).
Proof.
  intros Hlen Hfree. unfold handlers.Public, handlers.Public_after.
  rewrite slice_from_long by exact Hlen. simpl.
  by rewrite cut_at_comma_whole.
Qed.

Lemma Public_without_later_comma_witness :
  handlers.Public "handlers: , no other comma" = Ret ", no other comma"%string.
Proof.
  apply (Public_without_later_comma "handlers: , no other comma").
  - vm_compute. lia.
  - reflexivity.
Defined.

(** ** The shutdown marker *)

Lemma Cause_add_layer (l : errors.layer) (err : error) :
  errors.Cause (errors.add_layer l err) = errors.Cause err.
Proof. destruct l, err; reflexivity. Qed.

Lemma Cause_wrap_layers (layers : list errors.layer) (err : error) :
  errors.Cause (errors.wrap_layers layers err) = errors.Cause err.
Proof.
  induction layers as [|l layers IH]; simpl; [reflexivity |].
  by rewrite Cause_add_layer.
Qed.

Lemma Cause_add_wrapper (w : wrapping.wrapper) (err : error) :
  errors.Cause (wrapping.add_wrapper w err) = errors.Cause err.
Proof. destruct w as [l|msg public]; [apply Cause_add_layer | reflexivity]. Qed.

Lemma Cause_wrap_all (ws : list wrapping.wrapper) (err : error) :
  errors.Cause (wrapping.wrap_all ws err) = errors.Cause err.
Proof.
  induction ws as [|w ws IH]; simpl; [reflexivity |].
  by rewrite Cause_add_wrapper.
Qed.

Lemma Cause_step (err cause : error) :
  errors.causer err = Some cause → errors.Cause err = errors.Cause cause.
Proof.
  destruct err as [| | | | | | | |msg public [c|]]; simpl; try discriminate;
    by intros [= ->].
Qed.

Lemma Cause_stop (err : error) :
  errors.causer err = None → errors.Cause err = err.
Proof.
  destruct err as [| | | | | | | |msg public [c|]]; simpl; try discriminate;
    reflexivity.
Qed.

(** [errors.Cause] computes the innermost cause. *)
Lemma innermost_Cause (err root : error) :
  wrapping.innermost err root → errors.Cause err = root.
Proof.
  induction 1 as [err Hnone|err cause root Hsome _ IH].
  - by apply Cause_stop.
  - by rewrite (Cause_step err cause Hsome).
Qed.

Lemma Cause_innermost : ∀ err : error, wrapping.innermost err (errors.Cause err).
Proof.
  fix IH 1. intros err.
  destruct err as [|s|e|e|ve|msg|cause msg|cause|msg public [cause|]];
    try (by apply wrapping.innermost_here).
  - apply (wrapping.innermost_step _ cause); [reflexivity | exact (IH cause)].
  - apply (wrapping.innermost_step _ cause); [reflexivity | exact (IH cause)].
  - apply (wrapping.innermost_step _ cause); [reflexivity | exact (IH cause)].
Qed.

(** C6: [IsShutdown] holds of the result of [NewShutdownError], bare or
    under any stack of wrappers that keep their cause, those of
    pkg/errors and values of other types with a [Cause] method alike.
    Every error has an innermost cause, and [IsShutdown] holds of an
    error exactly when that cause is a [*shutdown].  The message plays
    no part: an [errors.New] or a [privateError] with the text of a
    shutdown message, bare or wrapped, is not a shutdown. *)
Theorem IsShutdown_by_type_only :
  (∀ message, web.IsShutdown (web.NewShutdownError message) = true)
  ∧ (∀ message ws,
       web.IsShutdown (wrapping.wrap_all ws (web.NewShutdownError message))
       = true)
  ∧ (∀ err, ∃ root, wrapping.innermost err root)
  ∧ (∀ err root,
       wrapping.innermost err root →
       (web.IsShutdown err = true ↔ ∃ s, root = shutdown_ptr s))
  ∧ (∀ message ws,
       errors.fundamental_Error message
       = web.shutdown_Error {| Message := message |}
       ∧ web.IsShutdown (wrapping.wrap_all ws (errors.New message)) = false
       ∧ handlers.privateError_Error message
         = web.shutdown_Error {| Message := message |}
       ∧ web.IsShutdown (wrapping.wrap_all ws (privateError message)) = false).
Proof.
  split; [reflexivity |]. split; [| split; [| split]].
  - intros message ws. unfold web.IsShutdown. by rewrite Cause_wrap_all.
  - intros err. exists (errors.Cause err). apply Cause_innermost.
  - intros err root Hroot. unfold web.IsShutdown.
    rewrite (innermost_Cause err root Hroot). split.
    + destruct root; try discriminate. by eexists.
    + by intros [s ->].
  - intros message ws. unfold web.IsShutdown. by rewrite !Cause_wrap_all.
Qed.

Lemma IsShutdown_by_type_only_witness :
  web.IsShutdown
    (otherError "stopping" None
       (Some (errors.Wrap (web.NewShutdownError "bye") "while serving")))
  = true
  ↔ ∃ s, web.NewShutdownError "bye" = shutdown_ptr s.
Proof.
  apply (proj1 (proj2 (proj2 (proj2 IsShutdown_by_type_only)))).
  apply (wrapping.innermost_step _
           (errors.Wrap (web.NewShutdownError "bye") "while serving"));
    [reflexivity |].
  apply (wrapping.innermost_step _
           (withMessage (web.NewShutdownError "bye") "while serving"));
    [reflexivity |].
  apply (wrapping.innermost_step _ (web.NewShutdownError "bye"));
    [reflexivity |].
  apply wrapping.innermost_here. reflexivity.
Defined.

(** ** Rendering: panics *)

(** C7 fails on the code: a controller error shorter than
    [len("handlers: ")] makes [Public] slice out of range, and [JSON]
    panics with it instead of producing a document and a status. *)
Theorem JSON_panics_on_short_controller_error
    (e : web.Error) (msg : string) (visit : list (string * error)) :
  (String.length msg < String.length handlers.prefix_literal)%nat →
  web.JSON e (ControllerError msg) visit = Panic SliceOutOfRange.
Proof.
  intros Hshort. unfold web.JSON. simpl models.Public.
  unfold handlers.Public, handlers.Public_after.
  by rewrite slice_from_short.
Qed.

Lemma JSON_panics_on_short_controller_error_witness :
  web.JSON sample.no_codes (ControllerError "oops") [] = Panic SliceOutOfRange.
Proof.
  apply (JSON_panics_on_short_controller_error sample.no_codes "oops" []).
  vm_compute. lia.
Defined.

(** ** Rendering: the registry *)

Section registry.

Implicit Types (e : web.Error) (err : error) (c public : string).
Implicit Types (visit : list (string * error)) (status : Z).

Lemma index_no_entry e c : web.entry e c = None → web.index e c = 0.
Proof. unfold web.index. by intros ->. Qed.

Lemma index_entry e c s : web.entry e c = Some s → web.index e c = s.
Proof. unfold web.index. by intros ->. Qed.

Lemma override_zero e c status :
  web.index e c = 0 → web.override e c status = status.
Proof. unfold web.override. intros ->. by case_decide. Qed.

Lemma override_nonzero e c status :
  web.index e c ≠ 0 → web.override e c status = web.index e c.
Proof. unfold web.override. intros Hnz. by case_decide. Qed.

Lemma override_keeps_nonzero e c status :
  status ≠ 0 → web.override e c status ≠ 0.
Proof. unfold web.override. intros Hnz. by case_decide. Qed.

Lemma override_index_ext e1 e2 c status :
  (∀ k, web.index e1 k = web.index e2 k) →
  web.override e1 c status = web.override e2 c status.
Proof. unfold web.override. by intros ->. Qed.

(** What [SetCode] leaves in the registry. *)
Lemma SetCode_returns e err c code :
  models.call_Public err = Ret c →
  ∃ e', web.SetCode e err code = Ret e'
        ∧ web.entry e' c = Some code
        ∧ ∀ k, k ≠ c → web.entry e' k = web.entry e k.
Proof.
  intros Hc. unfold web.SetCode. rewrite Hc. simpl.
  eexists. split; [reflexivity |]. unfold web.entry. simpl. split.
  - apply lookup_insert_eq.
  - intros k Hk. rewrite lookup_insert_ne by done.
    destruct (web.codes e); [reflexivity | apply lookup_empty].
Qed.

Lemma call_Public_disclosable err c :
  models.Public err = Some (Ret c) → models.call_Public err = Ret c.
Proof. unfold models.call_Public. by intros ->. Qed.

End registry.

(** ** Rendering: the loop over the fields *)

Section fields.

Implicit Types (e : web.Error) (err : error) (c public field : string).
Implicit Types (visit : list (string * error)) (status : Z).
Implicit Types (vem : gmap string string) (ve : gmap string error).

Lemma public_code_Some err c :
  models.public_code err = Some c ↔ models.call_Public err = Ret c.
Proof.
  unfold models.public_code.
  destruct (models.call_Public err); split; congruence.
Qed.

(** The loop returns exactly when [Public] returns for every field. *)
Lemma range_fields_returns e visit status vem :
  Forall (λ p, is_Some (models.public_code p.2)) visit →
  ∃ r, web.range_fields e visit status vem = Ret r.
Proof.
  revert status vem.
  induction visit as [|[field err] rest IH]; intros status vem Hall; simpl.
  - by eexists.
  - apply Forall_cons in Hall as [[c Hc] Hrest]. simpl in Hc.
    apply public_code_Some in Hc. rewrite Hc. simpl. by apply IH.
Qed.

Lemma range_fields_returned e visit status vem r :
  web.range_fields e visit status vem = Ret r →
  Forall (λ p, is_Some (models.public_code p.2)) visit.
Proof.
  revert status vem.
  induction visit as [|[field err] rest IH]; intros status vem Hret;
    simpl in Hret; [constructor |].
  destruct (models.call_Public err) as [c|] eqn:Hc; [|discriminate].
  simpl in Hret. constructor; [| by eapply IH].
  simpl. exists c. by apply public_code_Some.
Qed.

(** The field map built by the loop, entry by entry. *)
Lemma range_fields_lookup e visit status vem status' vem' field :
  NoDup visit.*1 →
  web.range_fields e visit status vem = Ret (status', vem') →
  ∀ c, vem' !! field = Some c ↔
       (∃ err, (field, err) ∈ visit ∧ models.public_code err = Some c)
       ∨ ((field ∉ visit.*1) ∧ vem !! field = Some c).
Proof.
  revert status vem.
  induction visit as [|[f err] rest IH]; intros status vem Hnd Hret c;
    simpl in Hret.
  - injection Hret as <- <-. split.
    + intros Hc. right. split; [apply not_elem_of_nil | done].
    + intros [(err & Hin & _)|[_ Hc]]; [by apply elem_of_nil in Hin | done].
  - destruct (models.call_Public err) as [c0|] eqn:Hc0; [|discriminate].
    simpl in Hret. simpl in Hnd. apply NoDup_cons in Hnd as [Hf Hnd].
    rewrite (IH _ _ Hnd Hret c). simpl. split.
    + intros [(err' & Hin & Hc)|[Hnot Hc]].
      * left. exists err'. split; [apply elem_of_cons; by right | done].
      * destruct (decide (f = field)) as [->|Hne].
        -- rewrite lookup_insert_eq in Hc. injection Hc as ->.
           left. exists err. split; [apply elem_of_cons; by left |].
           by apply public_code_Some.
        -- rewrite lookup_insert_ne in Hc by done.
           right. split; [| done].
           intros [Heq|Hin]%elem_of_cons; [by destruct Hne | by destruct Hnot].
    + intros [(err' & Hin & Hc)|[Hnot Hc]].
      * apply elem_of_cons in Hin as [Heq|Hin].
        -- injection Heq as -> ->. right. split; [done |].
           rewrite lookup_insert_eq. f_equal.
           apply public_code_Some in Hc. congruence.
        -- left. by exists err'.
      * right. apply not_elem_of_cons in Hnot as [Hne Hnot]. split; [done |].
        by rewrite lookup_insert_ne.
Qed.

(** Over the entries of a map, in any order, the loop builds the map
    of the public codes. *)
Lemma range_fields_codes e ve visit status status' vem' :
  visit ≡ₚ map_to_list ve →
  web.range_fields e visit status ∅ = Ret (status', vem') →
  vem' = omap models.public_code ve.
Proof.
  intros Hperm Hret. apply map_eq. intros field.
  assert (Hnd : NoDup visit.*1).
  { rewrite Hperm. apply NoDup_fst_map_to_list. }
  apply option_eq. intros c.
  rewrite (range_fields_lookup _ _ _ _ _ _ field Hnd Hret c).
  rewrite lookup_omap_Some. split.
  - intros [(err & Hin & Hc)|[_ Hc]]; [| by rewrite lookup_empty in Hc].
    exists err. split; [done |].
    rewrite Hperm in Hin. by apply elem_of_map_to_list in Hin.
  - intros (err & Hc & Hin). left. exists err. split; [| done].
    rewrite Hperm. by apply elem_of_map_to_list.
Qed.

(** The status left by the loop: the one it started with when no field
    has an override, and the override of some field otherwise. *)
Lemma range_fields_status e visit status vem status' vem' :
  web.range_fields e visit status vem = Ret (status', vem') →
  (status' = status
   ∧ ∀ field err c, (field, err) ∈ visit →
       models.public_code err = Some c → web.index e c = 0)
  ∨ (∃ field err c, (field, err) ∈ visit
       ∧ models.public_code err = Some c
       ∧ web.index e c ≠ 0 ∧ status' = web.index e c).
Proof.
  revert status vem.
  induction visit as [|[f err] rest IH]; intros status vem Hret;
    simpl in Hret.
  - injection Hret as <- <-. left. split; [done |].
    intros field err c Hin. by apply elem_of_nil in Hin.
  - destruct (models.call_Public err) as [c0|] eqn:Hc0; [|discriminate].
    simpl in Hret.
    destruct (IH _ _ Hret) as [[-> Hzero]|(field & err' & c & Hin & Hc & Hnz & ->)].
    + destruct (decide (web.index e c0 = 0)) as [Hz|Hnz].
      * left. split; [by apply override_zero |].
        intros field err' c [Heq|Hin]%elem_of_cons Hc; [| by eapply Hzero].
        injection Heq as -> ->. apply public_code_Some in Hc. congruence.
      * right. exists f, err, c0.
        split; [apply elem_of_cons; by left |].
        split; [by apply public_code_Some |].
        split; [done | by apply override_nonzero].
    + right. exists field, err', c. split; [apply elem_of_cons; by right | done].
Qed.

Lemma range_fields_nonzero e visit status vem status' vem' :
  status ≠ 0 →
  web.range_fields e visit status vem = Ret (status', vem') →
  status' ≠ 0.
Proof.
  intros Hnz Hret. destruct (range_fields_status _ _ _ _ _ _ Hret)
    as [[-> _]|(_ & _ & c & _ & _ & Hc & ->)]; done.
Qed.

Lemma range_fields_index_ext e1 e2 visit status vem :
  (∀ k, web.index e1 k = web.index e2 k) →
  web.range_fields e1 visit status vem = web.range_fields e2 visit status vem.
Proof.
  intros Hext. revert status vem.
  induction visit as [|[f err] rest IH]; intros status vem; simpl;
    [reflexivity |].
  destruct (models.call_Public err) as [c|]; simpl; [| reflexivity].
  by rewrite (override_index_ext e1 e2 c status Hext), IH.
Qed.

End fields.

(** ** Rendering: the view *)

Section view.

Implicit Types (e : web.Error) (err : error) (c public field : string).
Implicit Types (visit : list (string * error)) (status : Z).
Implicit Types (ve : gmap string error).

Lemma JSON_opaque e err visit :
  models.Public err = None →
  models.asValidationError err = None →
  web.JSON e err visit
  = Ret ({[ "error"%string := web.iface_string "server_error" ]}, 500).
Proof. unfold web.JSON. by intros -> ->. Qed.

Lemma JSON_plain e err c visit :
  models.Public err = Some (Ret c) →
  models.asValidationError err = None →
  web.JSON e err visit
  = Ret ({[ "error"%string := web.iface_string c ]}, web.override e c 400).
Proof.
  unfold web.JSON. intros -> ->. simpl. by rewrite insert_singleton_eq.
Qed.

Lemma JSON_aggregate e ve visit :
  web.JSON e (ValidationError ve) visit
  = '(status, vem) ←
      web.range_fields e visit (web.override e "validation_error" 400) ∅;
    mret (<[ "fields"%string := web.iface_fields vem ]>
            {[ "error"%string := web.iface_string "validation_error" ]},
          status).
Proof. unfold web.JSON. simpl. by rewrite insert_singleton_eq. Qed.

(** A validation aggregate whose fields all have a code renders as
    its document, with the status the loop leaves. *)
Lemma JSON_aggregate_returns e ve visit :
  visit ≡ₚ map_to_list ve →
  map_Forall (λ _ err, is_Some (models.public_code err)) ve →
  ∃ status,
    web.range_fields e visit (web.override e "validation_error" 400) ∅
    = Ret (status, omap models.public_code ve)
    ∧ web.JSON e (ValidationError ve) visit
      = Ret (web.aggregate_document ve, status).
Proof.
  intros Hperm Hall.
  assert (Hvisit : Forall (λ p, is_Some (models.public_code p.2)) visit).
  { apply Forall_forall. intros [k err] Hin. simpl.
    rewrite Hperm in Hin. apply elem_of_map_to_list in Hin.
    exact (Hall k err Hin). }
  destruct (range_fields_returns e visit
    (web.override e "validation_error" 400) ∅ Hvisit) as [[status vem] Hret].
  pose proof (range_fields_codes _ _ _ _ _ _ Hperm Hret) as ->.
  exists status. split; [exact Hret |].
  rewrite JSON_aggregate, Hret. reflexivity.
Qed.

Lemma JSON_status_nonzero e err visit data :
  web.JSON e err visit ≠ Ret (data, 0).
Proof.
  unfold web.JSON. intros Hret.
  assert (Hloop : ∀ (d : gmap string web.iface) status,
    status ≠ 0 →
    match models.asValidationError err with
    | Some ve =>
        '(status, vem) ← web.range_fields e visit status ∅;
        mret (<[ "fields"%string := web.iface_fields vem ]> d, status)
    | None => mret (d, status)
    end ≠ Ret (data, 0)).
  { intros d status Hnz Hr. destruct (models.asValidationError err).
    - destruct (web.range_fields e visit status ∅) as [[status' vem]|] eqn:Hf;
        [| discriminate].
      simpl in Hr. injection Hr as _ ->.
      by apply (range_fields_nonzero _ _ _ _ _ _ Hnz Hf).
    - injection Hr as _ ->. done. }
  destruct (models.Public err) as [[c|r]|]; simpl in Hret.
  - by apply (Hloop _ (web.override e c 400)) in Hret;
      [| apply override_keeps_nonzero].
  - discriminate.
  - by apply (Hloop _ 500) in Hret.
Qed.

Lemma JSON_index_ext e1 e2 err visit :
  (∀ k, web.index e1 k = web.index e2 k) →
  web.JSON e1 err visit = web.JSON e2 err visit.
Proof.
  intros Hext. unfold web.JSON.
  destruct (models.Public err) as [[c|r]|]; simpl; [| reflexivity |].
  - rewrite (override_index_ext e1 e2 c _ Hext).
    destruct (models.asValidationError err); [| reflexivity].
    by rewrite (range_fields_index_ext e1 e2 _ _ _ Hext).
  - destruct (models.asValidationError err); [| reflexivity].
    by rewrite (range_fields_index_ext e1 e2 _ _ _ Hext).
Qed.

End view.

(** ** Rendering: the loop, piece by piece *)

Section rendering.

Implicit Types (e : web.Error) (err x : error) (c : string).
Implicit Types (visit : list (string * error)) (status : Z).
Implicit Types (vem : gmap string string).

Lemma index_nonzero_entry e c :
  web.index e c ≠ 0 → web.entry e c = Some (web.index e c).
Proof.
  unfold web.index. destruct (web.entry e c); simpl; [done | by intros []].
Qed.

Lemma range_fields_app e visit1 visit2 status vem :
  web.range_fields e (visit1 ++ visit2) status vem
  = '(status', vem') ← web.range_fields e visit1 status vem;
    web.range_fields e visit2 status' vem'.
Proof.
  revert status vem.
  induction visit1 as [|[f a] rest IH]; intros status vem; simpl;
    [reflexivity |].
  destruct (models.call_Public a) as [c|]; simpl; [apply IH | reflexivity].
Qed.

(** The field map built by the loop does not depend on the registry nor
    on the status the loop starts with. *)
Lemma range_fields_any_registry e1 e2 visit status1 status2 vem status1' vem' :
  web.range_fields e1 visit status1 vem = Ret (status1', vem') →
  ∃ status2', web.range_fields e2 visit status2 vem = Ret (status2', vem').
Proof.
  revert status1 status2 vem.
  induction visit as [|[f a] rest IH]; intros status1 status2 vem Hret;
    simpl in *.
  - injection Hret as _ <-. by eexists.
  - destruct (models.call_Public a) as [c|]; [| discriminate].
    simpl in *. by eapply IH.
Qed.

Lemma field_status_nonzero e x :
  web.field_status e x ≠ 0 →
  ∃ c, models.call_Public x = Ret c ∧ web.index e c = web.field_status e x.
Proof.
  unfold web.field_status. intros Hnz.
  destruct (models.public_code x) as [c|] eqn:Hc; simpl in *; [| done].
  exists c. split; [by apply public_code_Some | reflexivity].
Qed.

Lemma field_status_code e x c :
  models.public_code x = Some c → web.field_status e x = web.index e c.
Proof. unfold web.field_status. by intros ->. Qed.

(** A stretch of fields without override leaves the status alone. *)
Lemma range_fields_no_override e visit status vem status' vem' :
  Forall (λ p, web.field_status e p.2 = 0) visit →
  web.range_fields e visit status vem = Ret (status', vem') →
  status' = status.
Proof.
  intros Hzero Hret.
  destruct (range_fields_status _ _ _ _ _ _ Hret)
    as [[-> _]|(f & a & c & Hin & Hc & Hnz & _)]; [reflexivity |].
  rewrite Forall_forall in Hzero. specialize (Hzero _ Hin). simpl in Hzero.
  by rewrite (field_status_code e a c Hc) in Hzero.
Qed.

Lemma wrapped_has_no_method (l : errors.layer) x :
  models.Public (errors.add_layer l x) = None
  ∧ models.asValidationError (errors.add_layer l x) = None.
Proof. destruct l, x; split; reflexivity. Qed.

End rendering.

(** ** Rendering: disclosable and opaque errors *)

(** C1, as amended: an error that has a [Public] method, is not a
    validation aggregate, and whose code [c] has no registry entry
    renders as [{"error": c}] with status 400. *)
Theorem disclosable_default_render
    (e : web.Error) (err : error) (c : string) (visit : list (string * error)) :
  models.Public err = Some (Ret c) →
  models.asValidationError err = None →
  web.entry e c = None →
  web.JSON e err visit = Ret ({[ "error"%string := web.iface_string c ]}, 400).
Proof.
  intros Hpub Hplain Hentry.
  rewrite (JSON_plain e err c visit Hpub Hplain).
  by rewrite override_zero by (by apply index_no_entry).
Qed.

Lemma disclosable_default_render_witness :
  web.JSON sample.one_code handlers.ErrNotFound []
  = Ret ({[ "error"%string := web.iface_string "not_found" ]}, 400).
Proof.
  apply (disclosable_default_render sample.one_code handlers.ErrNotFound
           "not_found" []).
  - reflexivity.
  - reflexivity.
  - reflexivity.
Defined.

(** C1 as stated fails for a validation aggregate, which has a [Public]
    method too: its document also holds "fields". *)
Lemma disclosable_default_counterexample : ¬ stated.disclosable_default.
Proof.
  intros Hall.
  specialize (Hall sample.no_codes (ValidationError sample.form)
                "validation_error"%string (map_to_list sample.form)
                eq_refl eq_refl).
  specialize (Hall (reflexivity _)).
  vm_compute in Hall. discriminate Hall.
Qed.

(** C2: an error without a [Public] method that is not a validation
    aggregate renders as [{"error": "server_error"}] with status 500,
    a result in which nothing of the error occurs. *)
Theorem opaque_render
    (e : web.Error) (err : error) (visit : list (string * error)) :
  models.Public err = None →
  models.asValidationError err = None →
  web.JSON e err visit
  = Ret ({[ "error"%string := web.iface_string "server_error" ]}, 500).
Proof. apply JSON_opaque. Qed.

Lemma opaque_render_witness :
  web.JSON sample.two_codes
    (errors.Wrap (privateError "password hash mismatch for user 7") "login") []
  = Ret ({[ "error"%string := web.iface_string "server_error" ]}, 500).
Proof.
  apply (opaque_render sample.two_codes
           (errors.Wrap (privateError "password hash mismatch for user 7") "login")
           []).
  - reflexivity.
  - reflexivity.
Defined.

(** ** Rendering: validation aggregates *)

(** C3: a validation aggregate whose fields all have a public code
    renders with "fields" mapping every field name to the code of its
    error; and when one field's code has an override (a registered
    status other than 0, the value [JSON] reads as absent) and the
    codes of the other fields have no entry, the status is that
    override, in whatever order the fields are visited. *)
Theorem validation_fields_and_override :
  (∀ (e : web.Error) (ve : gmap string error) (visit : list (string * error)),
     visit ≡ₚ map_to_list ve →
     map_Forall (λ _ err, is_Some (models.public_code err)) ve →
     ∃ status,
       web.JSON e (ValidationError ve) visit
       = Ret (web.aggregate_document ve, status)
       ∧ web.aggregate_document ve !! "fields"%string
         = Some (web.iface_fields (omap models.public_code ve))
       ∧ ∀ field, omap models.public_code ve !! field
                  = ve !! field ≫= models.public_code)
  ∧ (∀ (e : web.Error) (ve : gmap string error) (visit : list (string * error))
       (field : string) (err : error) (c : string) (s : Z),
       visit ≡ₚ map_to_list ve →
       map_Forall (λ _ err, is_Some (models.public_code err)) ve →
       ve !! field = Some err →
       models.public_code err = Some c →
       web.entry e c = Some s →
       s ≠ 0 →
       map_Forall (λ field' err',
         field' = field ∨ models.public_code err' ≫= web.entry e = None) ve →
       web.JSON e (ValidationError ve) visit
       = Ret (web.aggregate_document ve, s)).
Proof.
  split.
  - intros e ve visit Hperm Hall.
    destruct (JSON_aggregate_returns e ve visit Hperm Hall) as (status & _ & HJ).
    exists status. split; [exact HJ |]. split.
    + unfold web.aggregate_document. apply lookup_insert_eq.
    + intros field. apply lookup_omap.
  - intros e ve visit field err c s Hperm Hall Hfield Hc Hentry Hnz Hothers.
    destruct (JSON_aggregate_returns e ve visit Hperm Hall) as (status & Hloop & HJ).
    rewrite HJ. do 2 f_equal.
    apply index_entry in Hentry.
    destruct (range_fields_status _ _ _ _ _ _ Hloop)
      as [[_ Hzero]|(field' & err' & c' & Hin & Hc' & Hnz' & ->)].
    + exfalso. apply Hnz. rewrite <- Hentry.
      apply (Hzero field err c); [| exact Hc].
      rewrite Hperm. by apply elem_of_map_to_list.
    + rewrite Hperm in Hin. apply elem_of_map_to_list in Hin.
      destruct (Hothers field' err' Hin) as [->|Hnone].
      * rewrite Hfield in Hin. injection Hin as <-. congruence.
      * rewrite Hc' in Hnone. simpl in Hnone.
        by rewrite (index_no_entry _ _ Hnone) in Hnz'.
Qed.

Lemma validation_fields_and_override_witness :
  (∃ status,
     web.JSON sample.two_codes (ValidationError sample.form)
       [("age"%string, sample.too_young); ("email"%string, sample.invalid_email)]
     = Ret (web.aggregate_document sample.form, status)
     ∧ web.aggregate_document sample.form !! "fields"%string
       = Some (web.iface_fields (omap models.public_code sample.form))
     ∧ ∀ field, omap models.public_code sample.form !! field
                = sample.form !! field ≫= models.public_code)
  ∧ web.JSON sample.one_code (ValidationError sample.form)
      [("age"%string, sample.too_young); ("email"%string, sample.invalid_email)]
    = Ret (web.aggregate_document sample.form, 422).
Proof.
  split.
  - apply (proj1 validation_fields_and_override).
    + vm_compute. apply perm_swap.
    + compute_done.
  - apply (proj2 validation_fields_and_override sample.one_code sample.form _
             "age"%string sample.too_young "too_young"%string 422).
    + vm_compute. apply perm_swap.
    + compute_done.
    + reflexivity.
    + reflexivity.
    + reflexivity.
    + lia.
    + compute_done.
Defined.

(** ** Rendering: registered statuses *)

(** C4, as amended: for an error that has a [Public] method with code
    [c], registering 422 makes it render with status 422, unless it is
    a validation aggregate with a field whose [Public] panics or whose
    code, other than [c], has a registered status other than 0 and
    422; and for every error, registering [s1] and then [s2] leaves
    the registry that registering [s2] alone leaves, with [s2] as the
    entry of [c]. *)
Theorem registered_status_render :
  (∀ (e : web.Error) (err : error) (c : string) (visit : list (string * error)),
     models.Public err = Some (Ret c) →
     web.fields_allow_422 e err c visit →
     ∃ e1 data,
       web.SetCode e err 422 = Ret e1
       ∧ web.JSON e1 err visit = Ret (data, 422)
       ∧ data !! "error"%string = Some (web.iface_string c))
  ∧ (∀ (e : web.Error) (err : error) (c : string) (s1 s2 : Z),
       models.call_Public err = Ret c →
       ∃ e1 e2,
         web.SetCode e err s1 = Ret e1
         ∧ web.SetCode e1 err s2 = Ret e2
         ∧ web.entry e2 c = Some s2
         ∧ web.SetCode e err s2 = Ret e2).
Proof.
  split.
  - intros e err c visit Hpub Hfields.
    pose proof (call_Public_disclosable err c Hpub) as Hcall.
    destruct (SetCode_returns e err c 422 Hcall) as (e1 & Hset & Hentry & Hrest).
    pose proof (index_entry _ _ _ Hentry) as Hindex.
    exists e1. unfold web.fields_allow_422 in Hfields.
    destruct (models.asValidationError err) as [ve|] eqn:Hve.
    + destruct err; try discriminate. injection Hve as ->.
      injection Hpub as <-.
      assert (Hcodes : Forall (λ p, is_Some (models.public_code p.2)) visit).
      { eapply Forall_impl; [exact Hfields |]. intros [k a] Ha. simpl in *.
        destruct (models.public_code a); [by eexists | done]. }
      destruct (range_fields_returns e1 visit
                  (web.override e1 "validation_error" 400) ∅ Hcodes)
        as [[status vem] Hloop].
      exists (<[ "fields"%string := web.iface_fields vem ]>
                {[ "error"%string := web.iface_string "validation_error" ]}).
      split; [exact Hset |]. split; [| by rewrite lookup_insert_ne].
      rewrite JSON_aggregate, Hloop. simpl. do 2 f_equal.
      rewrite override_nonzero in Hloop by (by rewrite Hindex).
      rewrite Hindex in Hloop.
      destruct (range_fields_status _ _ _ _ _ _ Hloop)
        as [[-> _]|(k & a & code & Hin & Hcode & Hnz & ->)]; [reflexivity |].
      rewrite Forall_forall in Hfields. specialize (Hfields _ Hin).
      simpl in Hfields. rewrite Hcode in Hfields.
      destruct (decide (code = "validation_error"%string)) as [->|Hne];
        [exact Hindex |].
      assert (Hsame : web.index e1 code = web.index e code).
      { unfold web.index. by rewrite Hrest. }
      rewrite Hsame in Hnz |- *. by destruct Hfields as [?|[?|?]].
    + exists {[ "error"%string := web.iface_string c ]}.
      split; [exact Hset |]. split; [| apply lookup_singleton_eq].
      rewrite (JSON_plain e1 err c visit Hpub Hve).
      rewrite override_nonzero; rewrite Hindex; done.
  - intros e err c s1 s2 Hcall. unfold web.SetCode. rewrite Hcall. simpl.
    do 2 eexists. split; [reflexivity |]. split; [reflexivity |].
    unfold web.entry. simpl. split; [apply lookup_insert_eq |].
    by rewrite insert_insert_eq.
Qed.

Lemma registered_status_render_witness :
  (∃ e1 data,
     web.SetCode sample.no_codes (ValidationError sample.form) 422 = Ret e1
     ∧ web.JSON e1 (ValidationError sample.form) (map_to_list sample.form)
       = Ret (data, 422)
     ∧ data !! "error"%string = Some (web.iface_string "validation_error"))
  ∧ (∃ e1 e2,
       web.SetCode sample.one_code (ValidationError sample.form) 409 = Ret e1
       ∧ web.SetCode e1 (ValidationError sample.form) 422 = Ret e2
       ∧ web.entry e2 "validation_error" = Some 422
       ∧ web.SetCode sample.one_code (ValidationError sample.form) 422 = Ret e2).
Proof.
  split.
  - apply (proj1 registered_status_render sample.no_codes
             (ValidationError sample.form) "validation_error"
             (map_to_list sample.form)).
    + reflexivity.
    + vm_compute.
      constructor; [right; left; reflexivity |].
      constructor; [right; left; reflexivity | constructor].
  - apply (proj2 registered_status_render sample.one_code
             (ValidationError sample.form) "validation_error" 409 422).
    reflexivity.
Defined.

(** C4 as stated fails for a validation aggregate: the override of a
    field replaces the status registered for the aggregate itself. *)
Lemma registered_status_counterexample : ¬ stated.registered_status_rendered.
Proof.
  intros Hall.
  destruct (Hall sample.age_conflict
              {| web.codes := Some (<[ "validation_error"%string := 422 ]>
                                      {[ "too_young"%string := 409 ]}) |}
              (ValidationError sample.form) "validation_error"%string
              (map_to_list sample.form)
              eq_refl eq_refl (reflexivity _)) as [data Hdata].
  vm_compute in Hdata. discriminate Hdata.
Qed.

(** ** Rendering twice *)

(** C8, as amended: a second rendering of an error under the same
    registry returns whenever the first does, with the same document;
    the status is the same as well when no two fields of a validation
    aggregate carry different registered statuses other than 0; when
    they do, the status of a rendering is that of the override visited
    last, the one of a field after which no field with an override is
    visited. *)
Theorem render_twice :
  (∀ (e : web.Error) (err : error) (visit1 visit2 : list (string * error))
     (data : gmap string web.iface) (status1 : Z),
     web.range_order err visit1 →
     web.range_order err visit2 →
     web.JSON e err visit1 = Ret (data, status1) →
     ∃ status2, web.JSON e err visit2 = Ret (data, status2))
  ∧ (∀ (e : web.Error) (err : error) (visit1 visit2 : list (string * error))
       (r : gmap string web.iface * Z),
       web.range_order err visit1 →
       web.range_order err visit2 →
       web.overrides_agree e err →
       web.JSON e err visit1 = Ret r →
       web.JSON e err visit2 = Ret r)
  ∧ (∀ (e : web.Error) (ve : gmap string error)
       (before after : list (string * error)) (field : string) (err : error)
       (status : Z),
       before ++ (field, err) :: after ≡ₚ map_to_list ve →
       map_Forall (λ _ a, is_Some (models.public_code a)) ve →
       web.field_status e err = status →
       status ≠ 0 →
       Forall (λ p, web.field_status e p.2 = 0) after →
       web.JSON e (ValidationError ve) (before ++ (field, err) :: after)
       = Ret (web.aggregate_document ve, status)).
Proof.
  assert (Hother : ∀ (e : web.Error) (err : error) visit1 visit2,
    models.asValidationError err = None →
    web.JSON e err visit1 = web.JSON e err visit2).
  { intros e err visit1 visit2 Hplain. unfold web.JSON. rewrite Hplain.
    reflexivity. }
  assert (Hagg : ∀ (e : web.Error) ve visit1 visit2 r,
    visit1 ≡ₚ map_to_list ve → visit2 ≡ₚ map_to_list ve →
    web.JSON e (ValidationError ve) visit1 = Ret r →
    let base := web.override e "validation_error" 400 in
    ∃ status1 status2,
      r = (web.aggregate_document ve, status1)
      ∧ web.JSON e (ValidationError ve) visit2
        = Ret (web.aggregate_document ve, status2)
      ∧ web.range_fields e visit1 base ∅
        = Ret (status1, omap models.public_code ve)
      ∧ web.range_fields e visit2 base ∅
        = Ret (status2, omap models.public_code ve)).
  { intros e ve visit1 visit2 r Hp1 Hp2 HJ base.
    assert (Hall : map_Forall (λ _ err, is_Some (models.public_code err)) ve).
    { rewrite JSON_aggregate in HJ. fold base in HJ.
      destruct (web.range_fields e visit1 base ∅) as [r'|] eqn:Hf;
        [| discriminate].
      apply range_fields_returned in Hf.
      intros k err Hk. rewrite Forall_forall in Hf.
      apply (Hf (k, err)). rewrite Hp1. by apply elem_of_map_to_list. }
    destruct (JSON_aggregate_returns e ve visit1 Hp1 Hall) as (s1 & Hl1 & HJ1).
    destruct (JSON_aggregate_returns e ve visit2 Hp2 Hall) as (s2 & Hl2 & HJ2).
    exists s1, s2. rewrite HJ1 in HJ. injection HJ as <-. done. }
  split; [| split].
  - intros e err visit1 visit2 data status1 Ho1 Ho2 HJ.
    destruct (models.asValidationError err) as [ve|] eqn:Hve.
    + destruct err; try discriminate. injection Hve as ->.
      unfold web.range_order in Ho1, Ho2. simpl in Ho1, Ho2.
      destruct (Hagg _ _ _ _ _ Ho1 Ho2 HJ) as (s1 & s2 & Hr & HJ2 & _).
      injection Hr as -> ->. by exists s2.
    + exists status1. by rewrite <- (Hother e err visit1 visit2 Hve).
  - intros e err visit1 visit2 r Ho1 Ho2 Hagree HJ.
    destruct (models.asValidationError err) as [ve|] eqn:Hve.
    2:{ by rewrite <- (Hother e err visit1 visit2 Hve). }
    destruct err; try discriminate. injection Hve as ->.
    unfold web.range_order in Ho1, Ho2. simpl in Ho1, Ho2.
    unfold web.overrides_agree in Hagree. simpl in Hagree.
    destruct (Hagg _ _ _ _ _ Ho1 Ho2 HJ) as (s1 & s2 & -> & -> & Hl1 & Hl2).
    do 2 f_equal.
    assert (Hmem : ∀ visit k a, visit ≡ₚ map_to_list ve →
      (k, a) ∈ visit → ve !! k = Some a).
    { intros visit k a Hp Hin. rewrite Hp in Hin.
      by apply elem_of_map_to_list in Hin. }
    assert (Hin_perm : ∀ k a, (k, a) ∈ visit1 ↔ (k, a) ∈ visit2).
    { intros k a. by rewrite Ho1, Ho2. }
    destruct (range_fields_status _ _ _ _ _ _ Hl1)
      as [[-> Hz1]|(k1 & a1 & c1 & Hin1 & Hc1 & Hnz1 & ->)];
    destruct (range_fields_status _ _ _ _ _ _ Hl2)
      as [[-> Hz2]|(k2 & a2 & c2 & Hin2 & Hc2 & Hnz2 & ->)].
    + reflexivity.
    + destruct Hnz2. apply (Hz1 k2 a2 c2); [by apply Hin_perm | done].
    + destruct Hnz1. apply (Hz2 k1 a1 c1); [by apply Hin_perm | done].
    + pose proof (Hagree k1 a1 (Hmem _ _ _ Ho1 Hin1) k2 a2 (Hmem _ _ _ Ho2 Hin2))
        as Hag.
      unfold web.field_status in Hag. rewrite Hc1, Hc2 in Hag. simpl in Hag.
      destruct Hag as [?|[?|?]]; done.
  - intros e ve before after field err status Hperm Hall Hstatus Hnz Hafter.
    destruct (JSON_aggregate_returns e ve _ Hperm Hall) as (status' & Hloop & HJ).
    rewrite HJ. do 2 f_equal.
    rewrite range_fields_app in Hloop.
    destruct (web.range_fields e before
                (web.override e "validation_error" 400) ∅)
      as [[status1 vem1]|]; [| discriminate].
    simpl in Hloop. subst status.
    destruct (field_status_nonzero e err Hnz) as (c & Hc & Hindex).
    rewrite Hc in Hloop. simpl in Hloop.
    rewrite (range_fields_no_override _ _ _ _ _ _ Hafter Hloop).
    rewrite <- Hindex. apply override_nonzero. by rewrite Hindex.
Qed.

Lemma render_twice_witness :
  (∃ status2,
     web.JSON sample.two_codes (ValidationError sample.form)
       [("email"%string, sample.invalid_email); ("age"%string, sample.too_young)]
     = Ret (web.aggregate_document sample.form, status2))
  ∧ web.JSON sample.one_code (ValidationError sample.form)
      [("email"%string, sample.invalid_email); ("age"%string, sample.too_young)]
    = Ret (web.aggregate_document sample.form, 422)
  ∧ web.JSON sample.two_codes (ValidationError sample.signup)
      ([("email"%string, sample.invalid_email)]
       ++ ("age"%string, sample.too_young)
          :: [("name"%string, sample.too_short)])
    = Ret (web.aggregate_document sample.signup, 422).
Proof.
  split; [| split].
  - apply (proj1 render_twice sample.two_codes (ValidationError sample.form)
             [("age"%string, sample.too_young);
              ("email"%string, sample.invalid_email)] _ _ 409).
    + vm_compute. apply perm_swap.
    + vm_compute. reflexivity.
    + vm_compute. reflexivity.
  - apply (proj1 (proj2 render_twice) sample.one_code
             (ValidationError sample.form)
             [("age"%string, sample.too_young);
              ("email"%string, sample.invalid_email)]).
    + vm_compute. apply perm_swap.
    + vm_compute. reflexivity.
    + unfold web.overrides_agree. simpl. compute_done.
    + vm_compute. reflexivity.
  - apply (proj2 (proj2 render_twice) sample.two_codes sample.signup
             [("email"%string, sample.invalid_email)]
             [("name"%string, sample.too_short)]
             "age" sample.too_young 422).
    + vm_compute. reflexivity.
    + compute_done.
    + reflexivity.
    + lia.
    + constructor; [reflexivity | constructor].
Defined.

(** C8 as stated fails: with two fields that carry different statuses,
    the status rendered is that of the field visited last. *)
Lemma render_twice_counterexample : ¬ stated.render_twice_identical.
Proof.
  intros Hall.
  specialize (Hall sample.two_codes (ValidationError sample.form)
    [("age"%string, sample.too_young); ("email"%string, sample.invalid_email)]
    [("email"%string, sample.invalid_email); ("age"%string, sample.too_young)]
    (web.aggregate_document sample.form, 409)
    (web.aggregate_document sample.form, 422)).
  assert (Hneq : (web.aggregate_document sample.form, 409)
                 ≠ (web.aggregate_document sample.form, 422))
    by (intros Heq; injection Heq; discriminate).
  apply Hneq, Hall.
  - vm_compute. apply perm_swap.
  - vm_compute. reflexivity.
  - vm_compute. reflexivity.
  - vm_compute. reflexivity.
Qed.

(** ** Registering the status 0 *)

(** C9: registering 0 for a code that had no entry leaves an entry, yet
    every error renders as it did before; no rendering has status 0;
    and an error with that code that is not a validation aggregate
    still gets the default 400. *)
Theorem zero_status_reads_as_absent (e : web.Error) (err : error) (c : string) :
  models.call_Public err = Ret c →
  web.entry e c = None →
  ∃ e', web.SetCode e err 0 = Ret e'
        ∧ web.entry e' c = Some 0
        ∧ (∀ x visit, web.JSON e' x visit = web.JSON e x visit)
        ∧ (∀ x visit data, web.JSON e' x visit ≠ Ret (data, 0))
        ∧ (∀ visit, models.asValidationError err = None →
             web.JSON e' err visit
             = Ret ({[ "error"%string := web.iface_string c ]}, 400)).
Proof.
  intros Hcall Hnone.
  destruct (SetCode_returns e err c 0 Hcall) as (e' & Hset & Hentry & Hrest).
  assert (Hext : ∀ k, web.index e' k = web.index e k).
  { intros k. unfold web.index. destruct (decide (k = c)) as [->|Hne].
    - by rewrite Hentry, Hnone.
    - by rewrite Hrest. }
  exists e'. split; [exact Hset |]. split; [exact Hentry |].
  split; [| split].
  - intros x visit. by apply JSON_index_ext.
  - intros x visit data. apply JSON_status_nonzero.
  - intros visit Hplain.
    assert (Hpub : models.Public err = Some (Ret c)).
    { unfold models.call_Public in Hcall.
      destruct (models.Public err); [by rewrite Hcall | discriminate]. }
    rewrite (JSON_plain e' err c visit Hpub Hplain).
    by rewrite override_zero by (by rewrite (index_entry _ _ _ Hentry)).
Qed.

Lemma zero_status_reads_as_absent_witness :
  ∃ e', web.SetCode sample.one_code handlers.ErrNotFound 0 = Ret e'
        ∧ web.entry e' "not_found" = Some 0
        ∧ (∀ x visit, web.JSON e' x visit = web.JSON sample.one_code x visit)
        ∧ (∀ x visit data, web.JSON e' x visit ≠ Ret (data, 0))
        ∧ (∀ visit, models.asValidationError handlers.ErrNotFound = None →
             web.JSON e' handlers.ErrNotFound visit
             = Ret ({[ "error"%string := web.iface_string "not_found" ]}, 400)).
Proof.
  apply (zero_status_reads_as_absent sample.one_code handlers.ErrNotFound
           "not_found").
  - reflexivity.
  - reflexivity.
Defined.

(** * Further properties of the code *)

(** ** [ControllerError.Public] *)

Section public_code_shape.

Local Open Scope nat_scope.

Lemma length_drop_bytes (n : nat) (s : string) :
  String.length (drop_bytes n s) = String.length s - n.
Proof.
  revert s. induction n as [|n IH]; intros [|c s]; simpl; try reflexivity.
  apply IH.
Qed.

Lemma length_take_bytes (n : nat) (s : string) :
  String.length (take_bytes n s) ≤ String.length s.
Proof.
  revert s. induction n as [|n IH]; intros [|c s]; simpl; try lia.
  specialize (IH s). lia.
Qed.

(** Where the scan stops: at the first comma of [rest]. *)
Lemma scan_comma_found (rest : string) (i j : nat) :
  handlers.scan_comma rest i = Some j →
  ∃ pre post, rest = (pre ++ String comma post)%string
              ∧ codec.contains_byte comma pre = false
              ∧ j = i + String.length pre.
Proof.
  revert i. induction rest as [|c rest IH]; intros i; simpl; [discriminate |].
  destruct (Ascii.eqb c comma) eqn:Hc.
  - intros [= <-]. apply Ascii.eqb_eq in Hc as ->.
    exists EmptyString, rest. simpl. split; [reflexivity |].
    split; [reflexivity | lia].
  - intros Hscan. destruct (IH _ Hscan) as (pre & post & -> & Hfree & ->).
    exists (String c pre), post. simpl. rewrite Hc, Hfree.
    split; [reflexivity |]. split; [reflexivity | lia].
Qed.

Lemma scan_comma_missed (rest : string) (i : nat) :
  handlers.scan_comma rest i = None → codec.contains_byte comma rest = false.
Proof.
  revert i. induction rest as [|c rest IH]; intros i; simpl; [reflexivity |].
  destruct (Ascii.eqb c comma); [discriminate |]. simpl. apply IH.
Qed.

(** The two outcomes of the cut: the string is kept whole and has no
    comma from index 1 on, or it is cut just before a comma, after a
    first byte and a stretch without comma. *)
Lemma cut_at_comma_cases (s : string) :
  (handlers.cut_at_comma s = s
   ∧ codec.contains_byte comma (drop_bytes 1 s) = false)
  ∨ (∃ c0 pre post,
       s = String c0 (pre ++ String comma post)%string
       ∧ codec.contains_byte comma pre = false
       ∧ handlers.cut_at_comma s = String c0 pre).
Proof.
  unfold handlers.cut_at_comma.
  destruct (handlers.scan_comma (drop_bytes 1 s) 1) as [j|] eqn:Hscan.
  - right. destruct s as [|c0 s]; [discriminate |]. simpl in Hscan.
    destruct (scan_comma_found _ _ _ Hscan) as (pre & post & -> & Hfree & ->).
    exists c0, pre, post. split; [reflexivity |]. split; [exact Hfree |].
    simpl. f_equal. apply take_bytes_append.
  - left. split; [reflexivity |]. by apply scan_comma_missed in Hscan.
Qed.

Lemma Public_returns (e : string) :
  String.length handlers.prefix_literal ≤ String.length e →
  handlers.Public e
  = Ret (handlers.cut_at_comma
           (drop_bytes (String.length handlers.prefix_literal) e)).
Proof.
  intros Hlen. unfold handlers.Public, handlers.Public_after.
  by rewrite slice_from_long.
Qed.

Lemma Public_returned (e c : string) :
  handlers.Public e = Ret c →
  String.length handlers.prefix_literal ≤ String.length e
  ∧ c = handlers.cut_at_comma
          (drop_bytes (String.length handlers.prefix_literal) e).
Proof.
  intros Hret.
  destruct (Nat.le_gt_cases (String.length handlers.prefix_literal)
              (String.length e)) as [Hle|Hgt].
  - rewrite (Public_returns e Hle) in Hret. by injection Hret as <-.
  - unfold handlers.Public, handlers.Public_after in Hret.
    by rewrite slice_from_short in Hret.
Qed.

End public_code_shape.

(** X1: [Public] returns for every message of at least
    [len("handlers: ")] bytes and panics, slicing out of range, for
    every shorter one. *)
Theorem Public_returns_iff_long (e : string) :
  ((∃ c, handlers.Public e = Ret c)
   ↔ (String.length handlers.prefix_literal ≤ String.length e)%nat)
  ∧ (handlers.Public e = Panic SliceOutOfRange
     ↔ (String.length e < String.length handlers.prefix_literal)%nat).
Proof.
  destruct (Nat.le_gt_cases (String.length handlers.prefix_literal)
              (String.length e)) as [Hle|Hgt].
  - rewrite (Public_returns e Hle). split; split.
    + intros _. exact Hle.
    + intros _. by eexists.
    + discriminate.
    + intros Hlt. exfalso. lia.
  - unfold handlers.Public, handlers.Public_after.
    rewrite (slice_from_short _ _ Hgt). simpl in *. split; split.
    + intros [c Hc]. discriminate Hc.
    + intros Hle. exfalso. lia.
    + intros _. exact Hgt.
    + reflexivity.
Qed.

(** X2: a code returned by [Public] is the remainder after the first
    ten bytes, either whole or up to a comma that follows it directly;
    a code that was cut is not empty. *)
Theorem Public_code_is_prefix_of_remainder (e c : string) :
  handlers.Public e = Ret c →
  drop_bytes (String.length handlers.prefix_literal) e = c
  ∨ (c ≠ EmptyString
     ∧ ∃ rest, drop_bytes (String.length handlers.prefix_literal) e
               = (c ++ String comma rest)%string).
Proof.
  intros Hret. apply Public_returned in Hret as [_ ->].
  destruct (cut_at_comma_cases
              (drop_bytes (String.length handlers.prefix_literal) e))
    as [[Hwhole _]|(c0 & pre & post & Hs & _ & Hcut)].
  - by left.
  - right. rewrite Hcut. split; [discriminate |].
    exists post. exact Hs.
Qed.

Lemma Public_code_is_prefix_of_remainder_witness :
  drop_bytes (String.length handlers.prefix_literal)
    "handlers: not_found, resource not found" = "not_found"%string
  ∨ ("not_found"%string ≠ EmptyString
     ∧ ∃ rest, drop_bytes (String.length handlers.prefix_literal)
                 "handlers: not_found, resource not found"
               = ("not_found" ++ String comma rest)%string).
Proof.
  apply (Public_code_is_prefix_of_remainder
           "handlers: not_found, resource not found" "not_found").
  reflexivity.
Defined.

(** X3: a code returned by [Public] has no comma after its first byte. *)
Theorem Public_code_has_no_later_comma (e c : string) :
  handlers.Public e = Ret c →
  codec.contains_byte comma (drop_bytes 1 c) = false.
Proof.
  intros Hret. apply Public_returned in Hret as [_ ->].
  destruct (cut_at_comma_cases
              (drop_bytes (String.length handlers.prefix_literal) e))
    as [[-> Hfree]|(c0 & pre & post & _ & Hfree & ->)]; [exact Hfree |].
  exact Hfree.
Qed.

Lemma Public_code_has_no_later_comma_witness :
  codec.contains_byte comma (drop_bytes 1 "invalid_form") = false.
Proof.
  apply (Public_code_has_no_later_comma
           "handlers: invalid_form, provided input, as sent, cannot be parsed"
           "invalid_form").
  reflexivity.
Defined.

(** X4: [Public] does not look at the first ten bytes: two messages of
    which these differ and the rest is the same have the same code. *)
Theorem Public_ignores_prefix_bytes (p1 p2 rest : string) :
  String.length p1 = String.length handlers.prefix_literal →
  String.length p2 = String.length handlers.prefix_literal →
  handlers.Public (p1 ++ rest) = handlers.Public (p2 ++ rest)
  ∧ handlers.Public (p1 ++ rest) = Ret (handlers.cut_at_comma rest).
Proof.
  intros H1 H2. unfold handlers.Public, handlers.Public_after.
  rewrite <- H1 at 1. rewrite <- H2 at 1. rewrite <- H1.
  by rewrite !slice_from_append.
Qed.

Lemma Public_ignores_prefix_bytes_witness :
  handlers.Public ("services: " ++ "not_found, no such row")
  = handlers.Public ("handlers: " ++ "not_found, no such row")
  ∧ handlers.Public ("services: " ++ "not_found, no such row")
    = Ret (handlers.cut_at_comma "not_found, no such row").
Proof.
  apply (Public_ignores_prefix_bytes "services: " "handlers: "
           "not_found, no such row").
  - reflexivity.
  - reflexivity.
Defined.

(** X5: the code of a message, put behind the prefix with no message
    after it, is its own code. *)
Theorem Public_of_code_alone (e c : string) :
  handlers.Public e = Ret c →
  handlers.Public (handlers.prefix_literal ++ c) = Ret c.
Proof.
  intros Hret. apply Public_returned in Hret as [_ ->].
  set (s := drop_bytes (String.length handlers.prefix_literal) e).
  assert (Hfree : codec.contains_byte comma
                    (drop_bytes 1 (handlers.cut_at_comma s)) = false).
  { destruct (cut_at_comma_cases s)
      as [[-> Hfree]|(c0 & pre & post & _ & Hfree & ->)]; exact Hfree. }
  unfold handlers.Public, handlers.Public_after.
  rewrite slice_from_append. simpl.
  by rewrite cut_at_comma_whole.
Qed.

Lemma Public_of_code_alone_witness :
  handlers.Public (handlers.prefix_literal ++ "unsupported_grant_type")
  = Ret "unsupported_grant_type"%string.
Proof.
  apply (Public_of_code_alone
           "handlers: unsupported_grant_type, the grant-type provided is not supported").
  reflexivity.
Defined.

Lemma Public_returns_iff_long_witness :
  handlers.Public "handlers" = Panic SliceOutOfRange.
Proof.
  apply (proj2 (Public_returns_iff_long "handlers")).
  vm_compute. lia.
Defined.

(** ** [Error.SetCode] *)

Section registry_updates.

Implicit Types (e : web.Error) (err x : error) (c : string).
Implicit Types (visit : list (string * error)) (status code : Z).

Lemma SetCode_index_other e e' err c code :
  models.call_Public err = Ret c →
  web.SetCode e err code = Ret e' →
  ∀ k, k ≠ c → web.index e' k = web.index e k.
Proof.
  intros Hc Hset k Hk.
  destruct (SetCode_returns e err c code Hc) as (e1 & Hset1 & _ & Hrest).
  rewrite Hset in Hset1. injection Hset1 as <-.
  unfold web.index. by rewrite Hrest.
Qed.

Lemma SetCode_index_same e e' err c code :
  models.call_Public err = Ret c →
  web.SetCode e err code = Ret e' →
  web.index e' c = code.
Proof.
  intros Hc Hset.
  destruct (SetCode_returns e err c code Hc) as (e1 & Hset1 & Hentry & _).
  rewrite Hset in Hset1. injection Hset1 as <-.
  by apply index_entry.
Qed.

(** The loop reads the registry only at the codes of the fields. *)
Lemma range_fields_index_local e1 e2 visit status vem :
  Forall (λ p, ∀ c, models.public_code p.2 = Some c →
                    web.index e1 c = web.index e2 c) visit →
  web.range_fields e1 visit status vem = web.range_fields e2 visit status vem.
Proof.
  revert status vem.
  induction visit as [|[f a] rest IH]; intros status vem Hall; simpl;
    [reflexivity |].
  apply Forall_cons in Hall as [Ha Hrest]. simpl in Ha.
  destruct (models.call_Public a) as [c|] eqn:Hc; simpl; [| reflexivity].
  unfold web.override. rewrite (Ha c) by (by apply public_code_Some).
  by apply IH.
Qed.

End registry_updates.

(** X6: [SetCode] returns exactly when the call of [Public] does; the
    registry it leaves, a nil map included, holds the status at the
    code of the error and what it held before at every other code. *)
Theorem SetCode_entries (e : web.Error) (err : error) (code : Z) :
  (∀ c, models.call_Public err = Ret c →
        ∃ e', web.SetCode e err code = Ret e'
              ∧ ∀ k, web.entry e' k
                     = if decide (k = c) then Some code else web.entry e k)
  ∧ (∀ r, models.call_Public err = Panic r → web.SetCode e err code = Panic r).
Proof.
  split.
  - intros c Hc.
    destruct (SetCode_returns e err c code Hc) as (e' & Hset & Hentry & Hrest).
    exists e'. split; [exact Hset |]. intros k.
    case_decide as Hk; [by subst k | by apply Hrest].
  - intros r Hr. unfold web.SetCode. by rewrite Hr.
Qed.

Lemma SetCode_entries_witness :
  (∃ e', web.SetCode sample.no_codes handlers.ErrNotFound 404 = Ret e'
         ∧ ∀ k, web.entry e' k
                = if decide (k = "not_found"%string) then Some 404
                  else web.entry sample.no_codes k)
  ∧ web.SetCode sample.no_codes (ControllerError "oops") 404
    = Panic SliceOutOfRange.
Proof.
  split.
  - apply (proj1 (SetCode_entries sample.no_codes handlers.ErrNotFound 404)).
    reflexivity.
  - apply (proj2 (SetCode_entries sample.no_codes (ControllerError "oops") 404)).
    reflexivity.
Defined.

(** X7: the registry is keyed by the public code, not by the error
    value: a status other than 0 registered through one error is the
    status of every other error with the same code that is not a
    validation aggregate. *)
Theorem SetCode_shared_by_code
    (e : web.Error) (err x : error) (c : string) (status : Z)
    (visit : list (string * error)) :
  models.call_Public err = Ret c →
  models.Public x = Some (Ret c) →
  models.asValidationError x = None →
  status ≠ 0 →
  ∃ e', web.SetCode e err status = Ret e'
        ∧ web.JSON e' x visit
          = Ret ({[ "error"%string := web.iface_string c ]}, status).
Proof.
  intros Hc Hx Hplain Hnz.
  destruct (SetCode_returns e err c status Hc) as (e' & Hset & Hentry & _).
  exists e'. split; [exact Hset |].
  rewrite (JSON_plain e' x c visit Hx Hplain).
  rewrite override_nonzero; rewrite (index_entry _ _ _ Hentry); done.
Qed.

Lemma SetCode_shared_by_code_witness :
  ∃ e', web.SetCode sample.no_codes handlers.ErrNotFound 404 = Ret e'
        ∧ web.JSON e' (ControllerError "handlers: not_found, no such user") []
          = Ret ({[ "error"%string := web.iface_string "not_found" ]}, 404).
Proof.
  apply (SetCode_shared_by_code sample.no_codes handlers.ErrNotFound
           (ControllerError "handlers: not_found, no such user")
           "not_found" 404 []).
  - reflexivity.
  - reflexivity.
  - reflexivity.
  - lia.
Defined.

(** X8: registering a status for one code changes the rendering of no
    error that has another code and, if it is a validation aggregate,
    no field with that code. *)
Theorem SetCode_leaves_other_codes
    (e : web.Error) (err x : error) (c : string) (code : Z)
    (visit : list (string * error)) :
  models.call_Public err = Ret c →
  models.public_code x ≠ Some c →
  Forall (λ p, models.public_code p.2 ≠ Some c) visit →
  ∃ e', web.SetCode e err code = Ret e'
        ∧ web.JSON e' x visit = web.JSON e x visit.
Proof.
  intros Hc Hx Hfields.
  destruct (SetCode_returns e err c code Hc) as (e' & Hset & _ & _).
  exists e'. split; [exact Hset |].
  pose proof (SetCode_index_other e e' err c code Hc Hset) as Hother.
  assert (Hloop : ∀ status vem,
    web.range_fields e' visit status vem = web.range_fields e visit status vem).
  { intros status vem. apply range_fields_index_local.
    eapply Forall_impl; [exact Hfields |].
    intros [f a] Ha c' Hc'. simpl in *. apply Hother. congruence. }
  unfold web.JSON. unfold models.public_code, models.call_Public in Hx.
  destruct (models.Public x) as [[c'|r]|]; simpl; [| reflexivity |].
  - assert (Hne : c' ≠ c) by congruence.
    unfold web.override. rewrite (Hother c' Hne).
    destruct (models.asValidationError x); [| reflexivity].
    by rewrite Hloop.
  - destruct (models.asValidationError x); [| reflexivity].
    by rewrite Hloop.
Qed.

Lemma SetCode_leaves_other_codes_witness :
  ∃ e', web.SetCode sample.one_code handlers.ErrNotFound 404 = Ret e'
        ∧ web.JSON e' (ValidationError sample.form) (map_to_list sample.form)
          = web.JSON sample.one_code (ValidationError sample.form)
              (map_to_list sample.form).
Proof.
  apply (SetCode_leaves_other_codes sample.one_code handlers.ErrNotFound
           (ValidationError sample.form) "not_found" 404
           (map_to_list sample.form)).
  - reflexivity.
  - discriminate.
  - vm_compute. repeat constructor; discriminate.
Defined.

(** X9: registrations for two different codes can be made in either
    order: the registry that results is the same. *)
Theorem SetCode_commutes
    (e : web.Error) (err1 err2 : error) (c1 c2 : string) (s1 s2 : Z) :
  models.call_Public err1 = Ret c1 →
  models.call_Public err2 = Ret c2 →
  c1 ≠ c2 →
  (e1 ← web.SetCode e err1 s1; web.SetCode e1 err2 s2)
  = (e2 ← web.SetCode e err2 s2; web.SetCode e2 err1 s1).
Proof.
  intros H1 H2 Hne. unfold web.SetCode. rewrite H1, H2. simpl.
  do 3 f_equal. apply insert_insert_ne. congruence.
Qed.

Lemma SetCode_commutes_witness :
  (e1 ← web.SetCode sample.no_codes handlers.ErrNotFound 404;
   web.SetCode e1 sample.too_young 422)
  = (e2 ← web.SetCode sample.no_codes sample.too_young 422;
     web.SetCode e2 handlers.ErrNotFound 404).
Proof.
  apply (SetCode_commutes sample.no_codes handlers.ErrNotFound sample.too_young
           "not_found" "too_young" 404 422).
  - reflexivity.
  - reflexivity.
  - discriminate.
Defined.

(** X10: registering 0 for a code that has an override takes the
    override away: an error with that code that is not a validation
    aggregate renders with 400 again. *)
Theorem SetCode_zero_resets
    (e : web.Error) (err : error) (c : string) (status : Z)
    (visit : list (string * error)) :
  models.Public err = Some (Ret c) →
  models.asValidationError err = None →
  status ≠ 0 →
  ∃ e1 e2,
    web.SetCode e err status = Ret e1
    ∧ web.JSON e1 err visit
      = Ret ({[ "error"%string := web.iface_string c ]}, status)
    ∧ web.SetCode e1 err 0 = Ret e2
    ∧ web.JSON e2 err visit
      = Ret ({[ "error"%string := web.iface_string c ]}, 400).
Proof.
  intros Hpub Hplain Hnz.
  pose proof (call_Public_disclosable err c Hpub) as Hc.
  destruct (SetCode_returns e err c status Hc) as (e1 & Hset1 & Hentry1 & _).
  destruct (SetCode_returns e1 err c 0 Hc) as (e2 & Hset2 & Hentry2 & _).
  exists e1, e2. split; [exact Hset1 |]. split; [| split; [exact Hset2 |]].
  - rewrite (JSON_plain e1 err c visit Hpub Hplain).
    rewrite override_nonzero; rewrite (index_entry _ _ _ Hentry1); done.
  - rewrite (JSON_plain e2 err c visit Hpub Hplain).
    by rewrite override_zero by (by rewrite (index_entry _ _ _ Hentry2)).
Qed.

Lemma SetCode_zero_resets_witness :
  ∃ e1 e2,
    web.SetCode sample.no_codes handlers.ErrNotFound 404 = Ret e1
    ∧ web.JSON e1 handlers.ErrNotFound []
      = Ret ({[ "error"%string := web.iface_string "not_found" ]}, 404)
    ∧ web.SetCode e1 handlers.ErrNotFound 0 = Ret e2
    ∧ web.JSON e2 handlers.ErrNotFound []
      = Ret ({[ "error"%string := web.iface_string "not_found" ]}, 400).
Proof.
  apply (SetCode_zero_resets sample.no_codes handlers.ErrNotFound
           "not_found" 404 []).
  - reflexivity.
  - reflexivity.
  - lia.
Defined.

(** X11: a code returned by [Public] is at least ten bytes shorter than
    the message, so it is never the message itself. *)
Theorem Public_code_shorter (e c : string) :
  handlers.Public e = Ret c →
  (String.length c + String.length handlers.prefix_literal
   ≤ String.length (handlers.Error e))%nat
  ∧ c ≠ handlers.Error e.
Proof.
  intros Hret. apply Public_returned in Hret as [Hlen ->].
  unfold handlers.Error.
  set (s := drop_bytes (String.length handlers.prefix_literal) e).
  assert (Hcut : (String.length (handlers.cut_at_comma s) ≤ String.length s)%nat).
  { unfold handlers.cut_at_comma.
    destruct (handlers.scan_comma (drop_bytes 1 s) 1);
      [apply length_take_bytes | done]. }
  assert (Hs : String.length s
               = (String.length e - String.length handlers.prefix_literal)%nat)
    by apply length_drop_bytes.
  assert (Hbound : (String.length (handlers.cut_at_comma s)
                    + String.length handlers.prefix_literal
                    ≤ String.length e)%nat) by lia.
  split; [exact Hbound |].
  intros Heq. rewrite Heq in Hbound. simpl in Hbound. lia.
Qed.

Lemma Public_code_shorter_witness :
  (String.length "not_found" + String.length handlers.prefix_literal
   ≤ String.length
       (handlers.Error "handlers: not_found, resource not found"))%nat
  ∧ "not_found"%string
    ≠ handlers.Error "handlers: not_found, resource not found".
Proof.
  apply (Public_code_shorter "handlers: not_found, resource not found"
           "not_found").
  reflexivity.
Defined.

(** ** [Error.JSON] *)

(** X12: the status of a rendering is 500 for an error without
    [Public] method, 400 for one with it, or a status other than 0 that
    the registry holds for some code. *)
Theorem JSON_status_range
    (e : web.Error) (err : error) (visit : list (string * error))
    (data : gmap string web.iface) (status : Z) :
  web.JSON e err visit = Ret (data, status) →
  (status = 500 ∧ models.Public err = None)
  ∨ (status = 400 ∧ is_Some (models.Public err))
  ∨ (status ≠ 0 ∧ ∃ c, web.entry e c = Some status).
Proof.
  unfold web.JSON. intros Hret.
  assert (Hloop : ∀ (d : gmap string web.iface) status0,
    match models.asValidationError err with
    | Some ve =>
        '(status, vem) ← web.range_fields e visit status0 ∅;
        mret (<[ "fields"%string := web.iface_fields vem ]> d, status)
    | None => mret (d, status0)
    end = Ret (data, status) →
    status = status0 ∨ (status ≠ 0 ∧ ∃ c, web.entry e c = Some status)).
  { intros d status0 Hr. destruct (models.asValidationError err).
    - destruct (web.range_fields e visit status0 ∅) as [[status' vem]|] eqn:Hf;
        [| discriminate].
      simpl in Hr. injection Hr as _ ->.
      destruct (range_fields_status _ _ _ _ _ _ Hf)
        as [[-> _]|(_ & _ & c & _ & _ & Hnz & ->)]; [by left |].
      right. split; [done |]. exists c. by apply index_nonzero_entry.
    - injection Hr as _ ->. by left. }
  destruct (models.Public err) as [[c|r]|]; simpl in Hret.
  - apply Hloop in Hret as [->|Hreg]; [| by right; right].
    unfold web.override. case_decide as Hnz.
    + right; right. split; [done |]. exists c. by apply index_nonzero_entry.
    + right; left. split; [reflexivity | by eexists].
  - discriminate.
  - apply Hloop in Hret as [->|Hreg]; [by left | by right; right].
Qed.

Lemma JSON_status_range_witness :
  (422 = 500 ∧ models.Public (ValidationError sample.form) = None)
  ∨ (422 = 400 ∧ is_Some (models.Public (ValidationError sample.form)))
  ∨ (422 ≠ 0 ∧ ∃ c, web.entry sample.one_code c = Some 422).
Proof.
  apply (JSON_status_range sample.one_code (ValidationError sample.form)
           (map_to_list sample.form) (web.aggregate_document sample.form) 422).
  vm_compute. reflexivity.
Defined.

(** X13: the document of a rendering holds "error", with the public
    code of the error or "server_error" when it has none; it holds
    "fields" exactly for a validation aggregate; it holds no other
    key. *)
Theorem JSON_document_keys
    (e : web.Error) (err : error) (visit : list (string * error))
    (data : gmap string web.iface) (status : Z) :
  web.JSON e err visit = Ret (data, status) →
  data !! "error"%string
  = Some (web.iface_string (default "server_error"%string (models.public_code err)))
  ∧ (is_Some (data !! "fields"%string)
     ↔ is_Some (models.asValidationError err))
  ∧ ∀ k, is_Some (data !! k) → k = "error"%string ∨ k = "fields"%string.
Proof.
  unfold web.JSON, models.public_code, models.call_Public. intros Hret.
  assert (Hloop : ∀ (d : gmap string web.iface) status0 (code : string),
    d = {[ "error"%string := web.iface_string code ]} →
    match models.asValidationError err with
    | Some ve =>
        '(status, vem) ← web.range_fields e visit status0 ∅;
        mret (<[ "fields"%string := web.iface_fields vem ]> d, status)
    | None => mret (d, status0)
    end = Ret (data, status) →
    data !! "error"%string = Some (web.iface_string code)
    ∧ (is_Some (data !! "fields"%string)
       ↔ is_Some (models.asValidationError err))
    ∧ ∀ k, is_Some (data !! k) → k = "error"%string ∨ k = "fields"%string).
  { intros d status0 code -> Hr. destruct (models.asValidationError err).
    - destruct (web.range_fields e visit status0 ∅) as [[status' vem]|];
        [| discriminate].
      simpl in Hr. injection Hr as <- _. split; [done |]. split.
      + rewrite lookup_insert_eq. split; by eexists.
      + intros k [v Hk]. apply lookup_insert_Some in Hk as [[<- _]|[_ Hk]];
          [by right |].
        apply lookup_singleton_Some in Hk as [<- _]. by left.
    - injection Hr as <- _. split; [done |]. split.
      + split; intros [v Hv]; discriminate.
      + intros k [v Hk]. apply lookup_singleton_Some in Hk as [<- _]. by left. }
  destruct (models.Public err) as [[c|r]|]; simpl in Hret.
  - eapply Hloop; [| exact Hret]. by rewrite insert_singleton_eq.
  - discriminate.
  - eapply Hloop; [| exact Hret]. reflexivity.
Qed.

Lemma JSON_document_keys_witness :
  web.aggregate_document sample.form !! "error"%string
  = Some (web.iface_string
            (default "server_error"%string
               (models.public_code (ValidationError sample.form))))
  ∧ (is_Some (web.aggregate_document sample.form !! "fields"%string)
     ↔ is_Some (models.asValidationError (ValidationError sample.form)))
  ∧ ∀ k, is_Some (web.aggregate_document sample.form !! k) →
         k = "error"%string ∨ k = "fields"%string.
Proof.
  apply (JSON_document_keys sample.one_code (ValidationError sample.form)
           (map_to_list sample.form) (web.aggregate_document sample.form) 422).
  vm_compute. reflexivity.
Defined.

(** X14: the registry decides the status only: under another registry
    the same error, visited in the same order, renders with the same
    document. *)
Theorem JSON_document_any_registry
    (e1 e2 : web.Error) (err : error) (visit : list (string * error))
    (data : gmap string web.iface) (status1 : Z) :
  web.JSON e1 err visit = Ret (data, status1) →
  ∃ status2, web.JSON e2 err visit = Ret (data, status2).
Proof.
  unfold web.JSON. intros Hret.
  assert (Hloop : ∀ (d : gmap string web.iface) s1 s2,
    match models.asValidationError err with
    | Some ve =>
        '(status, vem) ← web.range_fields e1 visit s1 ∅;
        mret (<[ "fields"%string := web.iface_fields vem ]> d, status)
    | None => mret (d, s1)
    end = Ret (data, status1) →
    ∃ status2,
      match models.asValidationError err with
      | Some ve =>
          '(status, vem) ← web.range_fields e2 visit s2 ∅;
          mret (<[ "fields"%string := web.iface_fields vem ]> d, status)
      | None => mret (d, s2)
      end = Ret (data, status2)).
  { intros d s1 s2 Hr. destruct (models.asValidationError err).
    - destruct (web.range_fields e1 visit s1 ∅) as [[status' vem]|] eqn:Hf;
        [| discriminate].
      simpl in Hr. injection Hr as <- _.
      destruct (range_fields_any_registry e1 e2 visit s1 s2 ∅ _ _ Hf)
        as [status2 ->].
      by exists status2.
    - injection Hr as <- _. by exists s2. }
  destruct (models.Public err) as [[c|r]|]; simpl in *.
  - by eapply Hloop.
  - discriminate.
  - by eapply Hloop.
Qed.

Lemma JSON_document_any_registry_witness :
  ∃ status2,
    web.JSON sample.no_codes (ValidationError sample.form)
      (map_to_list sample.form)
    = Ret (web.aggregate_document sample.form, status2).
Proof.
  apply (JSON_document_any_registry sample.two_codes sample.no_codes
           (ValidationError sample.form) (map_to_list sample.form)
           (web.aggregate_document sample.form) 422).
  vm_compute. reflexivity.
Defined.

(** X15: [JSON] gets as far as its call of [Respond], with a document
    and a status to hand over, exactly when no call of [Public] on the
    way panics: the error's own, if it has the method, and, for a
    validation aggregate, that of every field visited.  The condition
    does not mention the registry.  What [Respond] then does is not
    part of the statement. *)
Theorem JSON_returns_iff
    (e : web.Error) (err : error) (visit : list (string * error)) :
  (∃ r, web.JSON e err visit = Ret r)
  ↔ (∀ p, models.Public err ≠ Some (Panic p))
    ∧ (is_Some (models.asValidationError err) →
       Forall (λ p, is_Some (models.public_code p.2)) visit).
Proof.
  unfold web.JSON. split.
  - intros [r Hret]. split.
    + intros p Hp. rewrite Hp in Hret. discriminate Hret.
    + intros [ve Hve]. rewrite Hve in Hret.
      destruct (models.Public err) as [[c|p]|]; simpl in Hret;
        try discriminate;
        match type of Hret with
        | context [web.range_fields e visit ?s ∅] =>
            destruct (web.range_fields e visit s ∅) as [r'|] eqn:Hf;
              [by apply range_fields_returned in Hf | discriminate]
        end.
  - intros [Hown Hfields].
    assert (Hloop : ∀ (d : gmap string web.iface) status0,
      ∃ r, match models.asValidationError err with
           | Some ve =>
               '(status, vem) ← web.range_fields e visit status0 ∅;
               mret (<[ "fields"%string := web.iface_fields vem ]> d, status)
           | None => mret (d, status0)
           end = Ret r).
    { intros d status0. destruct (models.asValidationError err) as [ve|].
      - destruct (range_fields_returns e visit status0 ∅) as [[s vem] ->];
          [by apply Hfields | by eexists].
      - by eexists. }
    destruct (models.Public err) as [[c|p]|]; simpl.
    + apply Hloop.
    + by destruct (Hown p).
    + apply Hloop.
Qed.

Lemma JSON_returns_iff_witness :
  ∃ r, web.JSON sample.two_codes (ValidationError sample.form)
         (map_to_list sample.form) = Ret r.
Proof.
  apply (proj2 (JSON_returns_iff sample.two_codes (ValidationError sample.form)
                  (map_to_list sample.form))).
  split.
  - discriminate.
  - intros _. vm_compute. repeat constructor; by eexists.
Defined.

(** X16: [JSON] asserts the type of the error itself, not of its cause:
    under a wrapping layer of pkg/errors every error, one with a
    [Public] method or a validation aggregate too, renders as
    "server_error" with status 500. *)
Theorem JSON_wrapped_is_opaque
    (e : web.Error) (l : errors.layer) (layers : list errors.layer)
    (err : error) (visit : list (string * error)) :
  web.JSON e (errors.wrap_layers (l :: layers) err) visit
  = Ret ({[ "error"%string := web.iface_string "server_error" ]}, 500).
Proof.
  simpl. destruct (wrapped_has_no_method l (errors.wrap_layers layers err))
    as [Hpub Hagg].
  by apply JSON_opaque.
Qed.

(** X17: among the fields of a validation aggregate the override
    visited last wins: when the fields visited after a field have no
    override, the status is the override of that field. *)
Theorem JSON_last_override_wins
    (e : web.Error) (ve : gmap string error)
    (before after : list (string * error)) (field : string) (err : error)
    (status : Z) :
  before ++ (field, err) :: after ≡ₚ map_to_list ve →
  map_Forall (λ _ a, is_Some (models.public_code a)) ve →
  web.field_status e err = status →
  status ≠ 0 →
  Forall (λ p, web.field_status e p.2 = 0) after →
  web.JSON e (ValidationError ve) (before ++ (field, err) :: after)
  = Ret (web.aggregate_document ve, status).
Proof.
  intros Hperm Hall Hstatus Hnz Hafter.
  destruct (JSON_aggregate_returns e ve _ Hperm Hall) as (status' & Hloop & HJ).
  rewrite HJ. do 2 f_equal.
  rewrite range_fields_app in Hloop.
  destruct (web.range_fields e before
              (web.override e "validation_error" 400) ∅)
    as [[status1 vem1]|]; [| discriminate].
  simpl in Hloop. subst status.
  destruct (field_status_nonzero e err Hnz) as (c & Hc & Hindex).
  rewrite Hc in Hloop. simpl in Hloop.
  rewrite (range_fields_no_override _ _ _ _ _ _ Hafter Hloop).
  rewrite <- Hindex. apply override_nonzero. by rewrite Hindex.
Qed.

Lemma JSON_last_override_wins_witness :
  web.JSON sample.two_codes (ValidationError sample.form)
    ([("age"%string, sample.too_young)]
     ++ ("email"%string, sample.invalid_email) :: [])
  = Ret (web.aggregate_document sample.form, 409).
Proof.
  apply (JSON_last_override_wins sample.two_codes sample.form
           [("age"%string, sample.too_young)] []
           "email" sample.invalid_email 409).
  - vm_compute. apply perm_swap.
  - compute_done.
  - reflexivity.
  - lia.
  - constructor.
Defined.

(** X18: a validation aggregate none of whose fields has an override,
    an aggregate without fields included, renders with the status
    registered for "validation_error", and with 400 when that is
    absent or 0. *)
Theorem JSON_aggregate_own_status
    (e : web.Error) (ve : gmap string error) (visit : list (string * error)) :
  visit ≡ₚ map_to_list ve →
  map_Forall (λ _ a, is_Some (models.public_code a)
                     ∧ web.field_status e a = 0) ve →
  web.JSON e (ValidationError ve) visit
  = Ret (web.aggregate_document ve,
         if decide (web.index e "validation_error" = 0) then 400
         else web.index e "validation_error").
Proof.
  intros Hperm Hall.
  assert (Hcodes : map_Forall (λ _ a, is_Some (models.public_code a)) ve).
  { intros k a Hk. by destruct (Hall k a Hk). }
  destruct (JSON_aggregate_returns e ve visit Hperm Hcodes)
    as (status & Hloop & HJ).
  rewrite HJ. do 2 f_equal.
  assert (Hzero : Forall (λ p, web.field_status e p.2 = 0) visit).
  { apply Forall_forall. intros [k a] Hin. simpl.
    rewrite Hperm in Hin. apply elem_of_map_to_list in Hin.
    by destruct (Hall k a Hin). }
  rewrite (range_fields_no_override _ _ _ _ _ _ Hzero Hloop).
  unfold web.override. by repeat case_decide.
Qed.

Lemma JSON_aggregate_own_status_witness :
  web.JSON sample.aggregate_code (ValidationError sample.form)
    [("age"%string, sample.too_young); ("email"%string, sample.invalid_email)]
  = Ret (web.aggregate_document sample.form,
         if decide (web.index sample.aggregate_code "validation_error" = 0)
         then 400
         else web.index sample.aggregate_code "validation_error")
  ∧ web.index sample.aggregate_code "validation_error" = 422.
Proof.
  split; [| reflexivity].
  apply (JSON_aggregate_own_status sample.aggregate_code sample.form
           [("age"%string, sample.too_young);
            ("email"%string, sample.invalid_email)]).
  - vm_compute. apply perm_swap.
  - compute_done.
Defined.

(** X19: with a registry that holds no status other than 0, a nil map
    included, the status of every rendering is 400 for an error with a
    [Public] method and 500 for any other. *)
Theorem JSON_default_statuses
    (e : web.Error) (err : error) (visit : list (string * error))
    (data : gmap string web.iface) (status : Z) :
  (∀ c, web.index e c = 0) →
  web.JSON e err visit = Ret (data, status) →
  status = match models.Public err with Some _ => 400 | None => 500 end.
Proof.
  intros Hzero Hret.
  rewrite (JSON_index_ext e {| web.codes := None |} err visit) in Hret
    by (intros k; by rewrite Hzero).
  unfold web.JSON in Hret.
  assert (Hfields : Forall (λ p, web.field_status {| web.codes := None |} p.2 = 0)
                      visit).
  { apply Forall_forall. intros [k a] _. unfold web.field_status. simpl.
    by destruct (models.public_code a). }
  assert (Hloop : ∀ (d : gmap string web.iface) status0,
    match models.asValidationError err with
    | Some ve =>
        '(status, vem) ←
          web.range_fields {| web.codes := None |} visit status0 ∅;
        mret (<[ "fields"%string := web.iface_fields vem ]> d, status)
    | None => mret (d, status0)
    end = Ret (data, status) → status = status0).
  { intros d status0 Hr. destruct (models.asValidationError err).
    - destruct (web.range_fields _ visit status0 ∅) as [[status' vem]|] eqn:Hf;
        [| discriminate].
      simpl in Hr. injection Hr as _ <-.
      by apply (range_fields_no_override _ _ _ _ _ _ Hfields Hf).
    - by injection Hr as _ <-. }
  destruct (models.Public err) as [[c|p]|]; simpl in Hret.
  - by apply Hloop in Hret.
  - discriminate.
  - by apply Hloop in Hret.
Qed.

Lemma JSON_default_statuses_witness :
  400 = match models.Public (ValidationError sample.form) with
        | Some _ => 400
        | None => 500
        end.
Proof.
  apply (JSON_default_statuses sample.no_codes (ValidationError sample.form)
           (map_to_list sample.form) (web.aggregate_document sample.form) 400).
  - intros c. reflexivity.
  - vm_compute. reflexivity.
Defined.

(** ** [IsShutdown] *)

(** X20: wrapping changes nothing for [IsShutdown]: an error under any
    stack of wrapping layers is a shutdown exactly when it is one
    without them; [nil] is none. *)
Theorem IsShutdown_unchanged_by_wrapping
    (layers : list errors.layer) (err : error) :
  web.IsShutdown (errors.wrap_layers layers err) = web.IsShutdown err
  ∧ web.IsShutdown (errors.wrap_layers layers nil_error) = false.
Proof.
  unfold web.IsShutdown. by rewrite !Cause_wrap_layers.
Qed.

